(** * ATM metrics: a shallow embedding of [atm/metrics.py]

    The module computes classification metrics with scikit-learn and drives
    stratified cross-validation of a pipeline.  Everything the module does not
    define itself (the scikit-learn scoring functions, the pipeline object and
    the fold splitter) is an external call: the embedding represents each
    function of the module as a program tree whose nodes are those calls, so
    that statements can quantify over every possible behaviour of the
    environment and can talk about the arguments a call receives. *)

From Stdlib Require Import QArith Qround.
From stdpp Require Import gmap strings list fin_maps sorting.

Local Open Scope nat_scope.

(** ** Numbers *)

(** A [float64] value as the module uses it: either NaN or a number.  Numbers
    are exact rationals kept in lowest terms; rounding of the binary format is
    not modelled (the module only compares, negates and forms [1 - p] and one
    quotient of two sample counts). *)
Inductive float : Type :=
| nan
| fin (q : Q).

Definition isnan (x : float) : bool :=
  match x with nan => true | fin _ => false end.

Definition fneg (x : float) : float :=
  match x with nan => nan | fin q => fin (Qred (- q)) end.

(** [1 - x] *)
Definition one_minus (x : float) : float :=
  match x with nan => nan | fin q => fin (Qred (1 - q)) end.

(** The order [np.argsort] sorts by: ascending, NaN after every number. *)
Definition fleb (a b : float) : bool :=
  match a, b with
  | _, nan => true
  | nan, fin _ => false
  | fin x, fin y => Qle_bool x y
  end.

(** Python 3 [round] of a rational: nearest integer, ties to even. *)
Definition py_round (x : Q) : Z :=
  let f := Qfloor x in
  match Qcompare (x - inject_Z f) (1 # 2) with
  | Lt => f
  | Gt => (f + 1)%Z
  | Eq => if Z.even f then f else (f + 1)%Z
  end.

(** The argument [n] of [rank_n_accuracy]: a Python [int] or [float]. *)
Inductive number : Type :=
| PyInt (z : Z)
| PyFloat (q : Q).

(** ** Exceptions and external calls *)

Inductive exn : Type :=
| ZeroDivisionError
| IndexError
| TypeError
| ValueError.

(** Class labels are the integer codes of the classes; in multiclass mode the
    label of a class is also the index of its column in the score matrix. *)
Abbreviation label := nat.

(** A two-dimensional numpy array: [shape[1]] and the list of its rows. *)
Record matrix (A : Type) : Type := Matrix {
  shape1 : nat;
  mrows : list (list A)
}.
Arguments Matrix {A} _ _.
Arguments shape1 {A} _.
Arguments mrows {A} _.

Definition shape0 {A} (m : matrix A) : nat := length (mrows m).

(** The array really has [shape1] entries in each row. *)
Definition well_shaped {A} (m : matrix A) : Prop :=
  Forall (fun r => length r = shape1 m) (mrows m).

(** What a scoring call of a pipeline returns: a vector or a matrix. *)
Inductive ndarray : Type :=
| Vec (v : list float)
| Mat (m : matrix float).

Inductive average : Type := micro | macro.

(** The feature matrix is a list of rows of an unspecified sample type. *)
Section Calls.
Context {sample : Type}.

(** The calls the module makes to code it does not define: scikit-learn's
    metric functions, the pipeline object and [StratifiedKFold].  The index is
    the type of the value the call returns. *)
Inductive extcall : Type -> Type :=
| accuracy_score (y_true y_pred : list label) : extcall float
| cohen_kappa_score (y_true y_pred : list label) : extcall float
| f1_score (y_true y_pred : list label) (avg : option average) : extcall float
| matthews_corrcoef (y_true y_pred : list label) : extcall float
| average_precision_score (y_true : matrix nat) (y_score : matrix float)
    : extcall float
| roc_auc_score (y_true : matrix nat) (y_score : matrix float)
    (avg : option average) : extcall float
| roc_curve (y_true : list label) (y_score : list float) (pos_label : nat)
    : extcall (list float * list float * list float)
| precision_recall_curve (y_true : list label) (y_score : list float)
    (pos_label : nat) : extcall (list float * list float * list float)
| pipeline_predict (X : list sample) : extcall (list label)
| pipeline_last_step : extcall string
| pipeline_decision_function (X : list sample) : extcall ndarray
| pipeline_predict_proba (X : list sample) : extcall (matrix float)
| pipeline_fit (X : list sample) (y : list label) : extcall unit
| skf_split (n_splits : nat) (X : list sample) (y : list label)
    : extcall (list (list nat * list nat)).

(** A run of a function of the module: it returns, raises, or calls out and
    continues with the answer. *)
Inductive prog (A : Type) : Type :=
| Ret (a : A)
| Raise (e : exn)
| Call {R : Type} (c : extcall R) (k : R -> prog A).
Arguments Ret {A} _.
Arguments Raise {A} _.
Arguments Call {A R} _ _.

Fixpoint bind {A B} (p : prog A) (f : A -> prog B) : prog B :=
  match p with
  | Ret a => f a
  | Raise e => Raise e
  | Call c k => Call c (fun r => bind (k r) f)
  end.

Definition call {R} (c : extcall R) : prog R := Call c Ret.

End Calls.
Arguments extcall : clear implicits.
Arguments prog : clear implicits.
Arguments Ret {sample A} _.
Arguments Raise {sample A} _.
Arguments Call {sample A R} _ _.

Declare Scope prog_scope.
Delimit Scope prog_scope with prog.
Bind Scope prog_scope with prog.
Notation "x ← p ; q" := (bind p (fun x => q))
  (at level 20, p at level 100, q at level 200, only parsing) : prog_scope.
Notation "p ;; q" := (bind p (fun _ => q))
  (at level 100, q at level 200, only parsing, right associativity)
  : prog_scope.
Local Open Scope prog_scope.

(** Running a program against an environment: a handler answers each call,
    or makes it raise, and may keep a state of its own (the pipeline is a
    mutable object). *)
Definition handler (sample W : Type) : Type :=
  forall R, extcall sample R -> W -> exn + (R * W).

Fixpoint run {sample W A} (h : handler sample W) (p : prog sample A) (w : W)
  : exn + (A * W) :=
  match p with
  | Ret a => inr (a, w)
  | Raise e => inl e
  | Call c k =>
      match h _ c w with
      | inl e => inl e
      | inr (r, w') => run h (k r) w'
      end
  end.

(** Every call the program can make, whatever the environment answers,
    satisfies [P]. *)
Inductive all_calls {sample A} (P : forall R, extcall sample R -> Prop)
  : prog sample A -> Prop :=
| all_calls_ret a : all_calls P (Ret a)
| all_calls_raise e : all_calls P (Raise e)
| all_calls_call R (c : extcall sample R) k :
    P R c -> (forall r, all_calls P (k r)) -> all_calls P (Call c k).

(** A loop [for i in ...] that threads the variables it updates. *)
Fixpoint for_each {sample I S} (items : list I) (body : I -> S -> prog sample S)
  (s : S) : prog sample S :=
  match items with
  | [] => Ret s
  | i :: items => s' ← body i s; for_each items body s'
  end.

(** ** numpy *)

Definition enumerate {A} (l : list A) : list (nat * A) :=
  zip (seq 0 (length l)) l.

Fixpoint insert_unique (x : nat) (l : list nat) : list nat :=
  match l with
  | [] => [x]
  | y :: l' =>
      if x <? y then x :: l
      else if x =? y then l
      else y :: insert_unique x l'
  end.

(** [np.unique]: the distinct values, ascending. *)
Definition np_unique (y : list label) : list label :=
  foldr insert_unique [] y.

(** [classes or alt]: an absent or empty sequence is false. *)
Definition or_else (classes : option (list label)) (alt : list label)
  : list label :=
  match classes with
  | Some (c :: cs) => c :: cs
  | Some [] | None => alt
  end.

(** [(y == cls).astype(int)] *)
Definition equals_int (y : list label) (cls : label) : list nat :=
  map (fun v => Nat.b2n (v =? cls)) y.

(** [np.zeros((s, c))] *)
Definition np_zeros (s c : nat) : matrix nat :=
  Matrix c (replicate s (replicate c 0)).

(** [m[:, i] = col] *)
Definition set_column {A} (m : matrix A) (i : nat) (col : list A) : matrix A :=
  Matrix (shape1 m) (zip_with (fun row v => <[i := v]> row) (mrows m) col).

(** The entries at position [i] of the rows. *)
Definition col {A} (m : matrix A) (i : nat) : option (list A) :=
  mapM (fun row : list A => row !! i) (mrows m).

(** [m[:, i]]; the index is checked against [shape[1]]. *)
Definition column {sample A} (m : matrix A) (i : nat) : prog sample (list A) :=
  if i <? shape1 m then
    match col m i with
    | Some c => Ret c
    | None => Raise IndexError
    end
  else Raise IndexError.

(** The sum of the entries of column [i]. *)
Definition column_sum (m : matrix nat) (i : nat) : nat :=
  sum_list (map (fun row : list nat => default 0 (row !! i)) (mrows m)).

(** [m[:, idx]] for an integer index array [idx]. *)
Definition take_columns {sample A} (m : matrix A) (idx : list nat)
  : prog sample (matrix A) :=
  if forallb (fun i => i <? shape1 m) idx then
    match mapM (fun row : list A => mapM (fun i => row !! i) idx) (mrows m) with
    | Some rows => Ret (Matrix (length idx) rows)
    | None => Raise IndexError
    end
  else Raise IndexError.

(** [a[idx]] along the first axis. *)
Definition take_rows {sample A} (a : list A) (idx : list nat)
  : prog sample (list A) :=
  match mapM (fun i => a !! i) idx with
  | Some rows => Ret rows
  | None => Raise IndexError
  end.

(** [np.column_stack((a, b))] of two vectors. *)
Definition column_stack2 {sample A} (a b : list A) : prog sample (matrix A) :=
  if length a =? length b then
    Ret (Matrix 2 (zip_with (fun x y => [x; y]) a b))
  else Raise ValueError.

(** [np.any(np.isnan(m))] *)
Definition any_isnan (m : matrix float) : bool :=
  existsb (existsb isnan) (mrows m).

Fixpoint insert_by (x : nat * float) (l : list (nat * float))
  : list (nat * float) :=
  match l with
  | [] => [x]
  | y :: l' => if fleb x.2 y.2 then x :: l else y :: insert_by x l'
  end.

(** [np.argsort] of one row: the positions in ascending order of their
    values.  Equal values are put in order of position here; numpy's default
    sort leaves the order of ties open, and the properties below are stated
    where that order plays no part. *)
Definition argsort (row : list float) : list nat :=
  (foldr insert_by [] (enumerate row)).*1.

(** [l[:n]] for a Python integer [n]: a negative [n] counts from the end and
    an [n] beyond the length takes the whole list. *)
Definition slice_to {A} (n : Z) (l : list A) : list A :=
  if (0 <=? n)%Z then take (Z.to_nat n) l
  else take (length l - Z.to_nat (- n)) l.

(** ** [rank_n_accuracy] *)

Section Metrics.
Context {sample : Type}.
Abbreviation prog := (prog sample).

(** [if n < 1: n = int(round(n_classes * n))], the top-[n] count the
    rankings are cut to.  A float is taken at its exact rational value and
    the product is exact, where Python rounds the product to a double before
    [round]: the two counts can differ by one when the product is next to a
    half, and a product beyond the range of doubles makes Python's [round]
    fail. *)
Definition top_count (n_classes : nat) (n : number) : number :=
  match n with
  | PyInt z =>
      if (z <? 1)%Z then PyInt (Z.of_nat n_classes * z) else n
  | PyFloat q =>
      if Qle_bool 1 q then n
      else PyInt (py_round (inject_Z (Z.of_nat n_classes) * q))
  end.

(** [np.argsort(-y_prob_mat)] *)
Definition rankings_of (y_prob_mat : matrix float) : list (list nat) :=
  map argsort (map (map fneg) (mrows y_prob_mat)).

Definition rank_n_accuracy (y_true : list label) (y_prob_mat : matrix float)
  (n : number) : prog float :=
  let n_classes := shape1 y_prob_mat in
  let n := top_count n_classes n in
  (* sort the rankings in descending order, then take the top n; a float
     is not a slice index *)
  let rankings := rankings_of y_prob_mat in
  rankings ← match n with
             | PyInt k => Ret (map (slice_to k) rankings)
             | PyFloat _ => Raise TypeError
             end;
  let num_samples := length y_true in
  correct_sample_count ←
    for_each (seq 0 num_samples)
      (fun i count =>
         match y_true !! i, rankings !! i with
         | Some y_i, Some r =>
             Ret (if bool_decide (y_i ∈ r) then count + 1 else count)
         | _, _ => Raise IndexError
         end) 0;
  match num_samples with
  | 0 => Raise ZeroDivisionError
  | S _ =>
      Ret (fin (Qred (Z.of_nat correct_sample_count
                      # Pos.of_nat num_samples)))
  end.

(** ** [get_per_class_matrix] *)

Definition get_per_class_matrix (y : list label)
  (classes : option (list label)) : matrix nat :=
  let classes := or_else classes (np_unique y) in
  let y_bin := np_zeros (length y) (length classes) in
  foldl (fun y_bin '(i, cls) => set_column y_bin i (equals_int y cls))
        y_bin (enumerate classes).

(** ** Result mappings *)

(** Modelled from the spec: [atm.constants] is not among the sources.  The
    metric names of its [Metrics] class form a closed enumeration of distinct
    keys; [class_wise] is the literal key ['class_wise'] that
    [get_metrics_multiclass] adds. *)
Inductive key : Type :=
| ACCURACY | RANK_ACCURACY | COHEN_KAPPA | F1 | F1_MICRO | F1_MACRO
| ROC_AUC | ROC_AUC_MICRO | ROC_AUC_MACRO | AP | MCC | PR_CURVE | ROC_CURVE
| class_wise.

#[global] Instance key_eq_dec : EqDecision key.
Proof. solve_decision. Defined.

Definition key_code (k : key) : nat :=
  match k with
  | ACCURACY => 0 | RANK_ACCURACY => 1 | COHEN_KAPPA => 2 | F1 => 3
  | F1_MICRO => 4 | F1_MACRO => 5 | ROC_AUC => 6 | ROC_AUC_MICRO => 7
  | ROC_AUC_MACRO => 8 | AP => 9 | MCC => 10 | PR_CURVE => 11
  | ROC_CURVE => 12 | class_wise => 13
  end.

Definition key_of_code (n : nat) : key :=
  match n with
  | 0 => ACCURACY | 1 => RANK_ACCURACY | 2 => COHEN_KAPPA | 3 => F1
  | 4 => F1_MICRO | 5 => F1_MACRO | 6 => ROC_AUC | 7 => ROC_AUC_MICRO
  | 8 => ROC_AUC_MACRO | 9 => AP | 10 => MCC | 11 => PR_CURVE
  | 12 => ROC_CURVE | _ => class_wise
  end.

#[global] Instance key_countable : Countable key.
Proof. apply (inj_countable' key_code key_of_code). by intros []. Defined.

(** A value of the mapping [get_metrics_binary] returns: a score, or the
    dictionary of the three point sequences of a curve. *)
Inductive leaf : Type :=
| Score (x : float)
| Curve (points : gmap string (list float)).

(** A value of the mapping [get_metrics_multiclass] returns: as above, or the
    per-class dictionary stored under ['class_wise']. *)
Inductive value : Type :=
| Leaf (v : leaf)
| ClassWise (per_class : gmap nat (gmap key leaf)).

(** ** [get_pr_roc_curves] *)

Definition get_pr_roc_curves (y_true : list label) (y_pred_probs : list float)
  : prog (gmap key leaf) :=
  let results : gmap key leaf := ∅ in
  roc ← call (roc_curve y_true y_pred_probs 1);
  let results :=
    <[ROC_CURVE := Curve {[ "fprs" := roc.1.1;
                            "tprs" := roc.1.2;
                            "thresholds" := roc.2 ]}]> results in
  pr ← call (precision_recall_curve y_true y_pred_probs 1);
  let results :=
    <[PR_CURVE := Curve {[ "precisions" := pr.1.1;
                           "recalls" := pr.1.2;
                           "thresholds" := pr.2 ]}]> results in
  Ret results.

(** ** [get_metrics_binary] *)

Definition get_metrics_binary (y_true y_pred : list label)
  (y_pred_probs : matrix float) (include_curves : bool)
  : prog (gmap key leaf) :=
  accuracy ← call (accuracy_score y_true y_pred);
  kappa ← call (cohen_kappa_score y_true y_pred);
  f1 ← call (f1_score y_true y_pred None);
  mcc ← call (matthews_corrcoef y_true y_pred);
  let results : gmap key leaf :=
    {[ ACCURACY := Score accuracy;
       COHEN_KAPPA := Score kappa;
       F1 := Score f1;
       MCC := Score mcc;
       ROC_AUC := Score nan;
       AP := Score nan ]} in
  (* if possible, compute PR and ROC curve metrics *)
  let all_labels_same := length (np_unique y_true) =? 1 in
  let any_probs_nan := any_isnan y_pred_probs in
  if negb any_probs_nan then
    (* AP can be computed even if all labels are the same *)
    let y_true_bin := get_per_class_matrix y_true (Some (seq 0 2)) in
    ap ← call (average_precision_score y_true_bin y_pred_probs);
    let results := <[AP := Score ap]> results in
    results ←
      (if negb all_labels_same then
         auc ← call (roc_auc_score y_true_bin y_pred_probs None);
         Ret (<[ROC_AUC := Score auc]> results)
       else Ret results);
    if include_curves then
      scores ← column y_pred_probs 1;
      curves ← get_pr_roc_curves y_true scores;
      (* results.update(curves) *)
      Ret (curves ∪ results)
    else Ret results
  else Ret results.

(** ** [get_metrics_multiclass] *)

(** [results['class_wise'][cls] = class_res] *)
Definition set_class_wise (cls : nat) (class_res : gmap key leaf)
  (results : gmap key value) : gmap key value :=
  alter (fun v => match v with
                  | ClassWise per_class =>
                      ClassWise (<[cls := class_res]> per_class)
                  | Leaf _ => v
                  end) class_wise results.

Definition get_metrics_multiclass (y_true y_pred : list label)
  (y_pred_probs : matrix float) (include_per_class include_curves : bool)
  : prog (gmap key value) :=
  accuracy ← call (accuracy_score y_true y_pred);
  kappa ← call (cohen_kappa_score y_true y_pred);
  f1_micro ← call (f1_score y_true y_pred (Some micro));
  f1_macro ← call (f1_score y_true y_pred (Some macro));
  let results : gmap key value :=
    {[ ACCURACY := Leaf (Score accuracy);
       COHEN_KAPPA := Leaf (Score kappa);
       F1_MICRO := Leaf (Score f1_micro);
       F1_MACRO := Leaf (Score f1_macro);
       ROC_AUC_MICRO := Leaf (Score nan);
       ROC_AUC_MACRO := Leaf (Score nan);
       RANK_ACCURACY := Leaf (Score nan) ]} in
  rank ← rank_n_accuracy y_true y_pred_probs (PyFloat (33 # 100));
  let results := <[RANK_ACCURACY := Leaf (Score rank)]> results in
  (* if possible, compute multi-label AUC metrics *)
  let present_classes := np_unique y_true in
  let all_labels_same := length present_classes =? 1 in
  let any_probs_nan := any_isnan y_pred_probs in
  results ←
    (if negb (all_labels_same || any_probs_nan) then
       (* get binary label matrix, ignoring classes that aren't present *)
       let y_true_bin := get_per_class_matrix y_true None in
       (* filter out probabilities for classes that aren't in this sample *)
       filtered_probs ← take_columns y_pred_probs present_classes;
       auc_micro ←
         call (roc_auc_score y_true_bin filtered_probs (Some micro));
       let results := <[ROC_AUC_MICRO := Leaf (Score auc_micro)]> results in
       auc_macro ←
         call (roc_auc_score y_true_bin filtered_probs (Some macro));
       Ret (<[ROC_AUC_MACRO := Leaf (Score auc_macro)]> results)
     else Ret results);
  if include_per_class || include_curves then
    let results := <[class_wise := ClassWise ∅]> results in
    (* create binary matrices, including classes that aren't actually
       present *)
    let all_classes := seq 0 (shape1 y_pred_probs) in
    let y_true_bin := get_per_class_matrix y_true (Some all_classes) in
    let y_pred_bin := get_per_class_matrix y_pred (Some all_classes) in
    for_each all_classes
      (fun cls results =>
         probs_cls ← column y_pred_probs cls;
         class_pred_probs ←
           column_stack2 (map one_minus probs_cls) probs_cls;
         y_true_cls ← column y_true_bin cls;
         y_pred_cls ← column y_pred_bin cls;
         class_res ← get_metrics_binary y_true_cls y_pred_cls
                       class_pred_probs include_curves;
         Ret (set_class_wise cls class_res results))
      results
  else Ret results.

(** ** [test_pipeline] *)

(** The keyword arguments [**kwargs] forwarded to the metric function: each
    may be absent. *)
Record kwargs : Type := Kwargs {
  kw_include_per_class : option bool;
  kw_include_curves : option bool
}.

(** [np.column_stack((-d, d))] for what [decision_function] returned: two
    vectors become the two columns, two matrices are joined side by side. *)
Definition stack_distances (d : ndarray) : prog (matrix float) :=
  match d with
  | Vec class_1_distance =>
      let class_0_distance := map fneg class_1_distance in
      column_stack2 class_0_distance class_1_distance
  | Mat m =>
      Ret (Matrix (shape1 m + shape1 m)
              (zip_with app (map (map fneg) (mrows m)) (mrows m)))
  end.

(** Applying [get_metrics(y, y_pred, y_pred_probs, **kwargs)].  The binary
    function has no [include_per_class] parameter; a one-dimensional score
    array has no [shape[1]], which [get_metrics_multiclass] reads once the
    label metrics are computed. *)
Definition apply_get_metrics (binary : bool) (y y_pred : list label)
  (y_pred_probs : ndarray) (kw : kwargs) : prog (gmap key value) :=
  if binary then
    match kw_include_per_class kw, y_pred_probs with
    | Some _, _ => Raise TypeError
    | None, Mat probs =>
        res ← get_metrics_binary y y_pred probs
                (default false (kw_include_curves kw));
        Ret (Leaf <$> res)
    | None, Vec _ =>
        call (accuracy_score y y_pred);;
        call (cohen_kappa_score y y_pred);;
        call (f1_score y y_pred None);;
        call (matthews_corrcoef y y_pred);;
        Raise IndexError
    end
  else
    match y_pred_probs with
    | Mat probs =>
        get_metrics_multiclass y y_pred probs
          (default false (kw_include_per_class kw))
          (default false (kw_include_curves kw))
    | Vec _ =>
        call (accuracy_score y y_pred);;
        call (cohen_kappa_score y y_pred);;
        call (f1_score y y_pred (Some micro));;
        call (f1_score y y_pred (Some macro));;
        Raise IndexError
    end.

Definition test_pipeline (X : list sample) (y : list label) (binary : bool)
  (kw : kwargs) : prog (gmap key value) :=
  (* run the test data through the trained pipeline *)
  y_pred ← call (pipeline_predict X);
  (* if necessary, use class distance scores in lieu of probability scores *)
  method ← call pipeline_last_step;
  y_pred_probs ←
    (if bool_decide (method ∈ ["sgd"; "pa"]) then
       if binary then
         class_1_distance ← call (pipeline_decision_function X);
         probs ← stack_distances class_1_distance;
         Ret (Mat probs)
       else call (pipeline_decision_function X)
     else
       probs ← call (pipeline_predict_proba X);
       Ret (Mat probs));
  apply_get_metrics binary y y_pred y_pred_probs kw.

(** ** [cross_validate_pipeline] *)

(** A cell of the summary table; [None] is Python's [None]. *)
Definition cell : Type := option value.

(** A [pandas.DataFrame] as the module uses it: the column labels and one
    record per row. *)
Record DataFrame : Type := MkDataFrame {
  columns : list key;
  records : list (gmap key cell)
}.

(** [df.append(rows)]: the rows are added after the present ones; a key no
    column is labelled with becomes a new column. *)
Definition df_append (df : DataFrame) (rows : list (gmap key cell))
  : DataFrame :=
  let new_keys :=
    filter (fun k => k ∉ columns df)
      (remove_dups (concat (map (fun r => (map_to_list r).*1) rows))) in
  MkDataFrame (columns df ++ new_keys) (records df ++ rows).

(** [{m: split_results.get(m) for m in metrics}] *)
Definition summary_row (metrics : list key) (split_results : gmap key value)
  : gmap key cell :=
  list_to_map (map (fun m => (m, split_results !! m)) metrics).

Section CrossValidation.

(** Modelled from the spec: the metric enumerations of the two modes and the
    default fold count are constants of [atm.constants], which is not among
    the sources. *)
Variables METRICS_BINARY METRICS_MULTICLASS : list key.
Variable N_FOLDS_DEFAULT : nat.

(** The body of the loop over the folds; it updates [df] and [results]. *)
Definition fold_step (X : list sample) (y : list label) (binary : bool)
  (kw : kwargs) (metrics : list key) (fold : list nat * list nat)
  (state : DataFrame * list (gmap key value))
  : prog (DataFrame * list (gmap key value)) :=
  let '(train_index, test_index) := fold in
  let '(df, results) := state in
  X_train ← take_rows X train_index;
  y_train ← take_rows y train_index;
  call (pipeline_fit X_train y_train);;
  X_test ← take_rows X test_index;
  y_test ← take_rows y test_index;
  split_results ← test_pipeline X_test y_test binary kw;
  let df := df_append df [summary_row metrics split_results] in
  Ret (df, results ++ [split_results]).

Definition cross_validate_pipeline (X : list sample) (y : list label)
  (binary : option bool) (n_folds : option nat) (kw : kwargs)
  : prog (DataFrame * list (gmap key value)) :=
  let binary := default true binary in
  let n_folds := default N_FOLDS_DEFAULT n_folds in
  let metrics := if binary then METRICS_BINARY else METRICS_MULTICLASS in
  let df := MkDataFrame metrics [] in
  let results : list (gmap key value) := [] in
  folds ← call (skf_split n_folds X y);
  for_each folds (fold_step X y binary kw metrics) (df, results).

End CrossValidation.

End Metrics.

(** ** Specification-side definitions *)

(** The number of samples whose label is among the columns ranked for it. *)
Definition count_hits (y_true : list label) (rankings : list (list nat))
  : nat :=
  length (filter (fun p : label * list nat => p.1 ∈ p.2)
            (zip y_true rankings)).

(** What [get_metrics_binary] amounts to when the probabilities cannot be
    trusted: the four label metrics, and NaN for the two probability
    metrics. *)
Definition label_metrics_only {sample} (y_true y_pred : list label)
  : prog sample (gmap key leaf) :=
  accuracy ← call (accuracy_score y_true y_pred);
  kappa ← call (cohen_kappa_score y_true y_pred);
  f1 ← call (f1_score y_true y_pred None);
  mcc ← call (matthews_corrcoef y_true y_pred);
  Ret {[ ACCURACY := Score accuracy;
         COHEN_KAPPA := Score kappa;
         F1 := Score f1;
         MCC := Score mcc;
         ROC_AUC := Score nan;
         AP := Score nan ]}.

(** A finite number between 0 and 1. *)
Definition unit_interval (x : float) : Prop :=
  ∃ q, x = fin q ∧ (0 <= q)%Q ∧ (q <= 1)%Q.

(** Modelled from the spec: average precision is one of the statistical
    primitives the spec takes as given ("standard closed-form definitions,
    assumed correct"): on scores without NaN the value it returns is a
    finite number in [0, 1]. *)
Definition average_precision_contract {sample W} (h : handler sample W)
  : Prop :=
  ∀ y_true_bin probs w x w',
    any_isnan probs = false →
    h _ (average_precision_score y_true_bin probs) w = inr (x, w') →
    unit_interval x.

(** The shapes scikit-learn documents for its two curve functions:
    [roc_curve] returns three arrays of one length; [precision_recall_curve]
    returns [precision] and [recall] with one entry more than [thresholds]
    (the last point, precision 1 and recall 0, has no threshold). *)
Definition curve_shapes_contract {sample W} (h : handler sample W) : Prop :=
  (∀ y s pos w fpr tpr thr w',
     h _ (roc_curve y s pos) w = inr ((fpr, tpr, thr), w') →
     length fpr = length thr ∧ length tpr = length thr)
  ∧
  (∀ y s pos w precision recall thr w',
     h _ (precision_recall_curve y s pos) w
     = inr ((precision, recall, thr), w') →
     length precision = S (length thr) ∧ length recall = S (length thr)).

(** The three sequences of a curve dictionary have one length. *)
Definition equal_lengths (x_key y_key : string) (v : leaf) : Prop :=
  match v with
  | Curve points =>
      ∃ xs ys thresholds,
        points !! x_key = Some xs ∧ points !! y_key = Some ys ∧
        points !! "thresholds" = Some thresholds ∧
        length xs = length thresholds ∧ length ys = length thresholds
  | Score _ => False
  end.

(** [filtered] holds, for each row of [probs], the entries of the columns
    [present], in that order. *)
Definition restricted_to (present : list label) (probs filtered : matrix float)
  : Prop :=
  shape1 filtered = length present ∧
  Forall2 (fun row row' => Forall2 (fun c x => row !! c = Some x) present row')
    (mrows probs) (mrows filtered).

(** What is asked of a call of [roc_auc_score] that names its averaging, as
    the two calls of [get_metrics_multiclass] itself do (the calls made for
    the single classes through [get_metrics_binary] do not). *)
Definition auc_arguments_ok {sample} (y_true : list label)
  (probs : matrix float) : ∀ R, extcall sample R → Prop :=
  fun R c =>
    match c with
    | roc_auc_score y_true_bin filtered_probs (Some _) =>
        y_true_bin = get_per_class_matrix y_true None ∧
        shape1 y_true_bin = length (np_unique y_true) ∧
        (∀ j, j < shape1 y_true_bin → 0 < column_sum y_true_bin j) ∧
        restricted_to (np_unique y_true) probs filtered_probs
    | _ => True
    end.

Definition names_average {sample R} (c : extcall sample R) : bool :=
  match c with
  | roc_auc_score _ _ (Some _) => true
  | _ => false
  end.

(** The program can make the call [c], for suitable answers to the calls
    before it. *)
Inductive may_call {sample A} : prog sample A → ∀ R, extcall sample R → Prop :=
| may_call_here R (c : extcall sample R) k : may_call (Call c k) R c
| may_call_later R (c : extcall sample R) k r R' (c' : extcall sample R') :
    may_call (k r) R' c' → may_call (Call c k) R' c'.

(** The program can return [a]. *)
Inductive may_return {sample A} : prog sample A → A → Prop :=
| may_return_ret a : may_return (Ret a) a
| may_return_call R (c : extcall sample R) k r a :
    may_return (k r) a → may_return (Call c k) a.

(** Modelled from the spec: the fold splitter is an external collaborator;
    "given (X, y, N), yields N (train_indices, test_indices) index-array
    pairs". *)
Definition split_contract {sample W} (h : handler sample W) : Prop :=
  ∀ n X y w folds w',
    h _ (skf_split n X y) w = inr (folds, w') → length folds = n.

(** [res] is what [test_pipeline] returned in some run on the test
    partition of [fold]. *)
Definition fold_result {sample W} (h : handler sample W) (X : list sample)
  (y : list label) (binary : bool) (kw : kwargs) (fold : list nat * list nat)
  (res : gmap key value) : Prop :=
  ∃ X_test y_test w w',
    take_rows (sample := sample) X fold.2 = Ret X_test ∧
    take_rows (sample := sample) y fold.2 = Ret y_test ∧
    run h (test_pipeline X_test y_test binary kw) w = inr (res, w').

(** The calls that go to scikit-learn's metric functions. *)
Definition sklearn_call {sample R} (c : extcall sample R) : bool :=
  match c with
  | accuracy_score _ _ | cohen_kappa_score _ _ | f1_score _ _ _
  | matthews_corrcoef _ _ | average_precision_score _ _
  | roc_auc_score _ _ _ | roc_curve _ _ _
  | precision_recall_curve _ _ _ => true
  | _ => false
  end.

(** The two calls [get_pr_roc_curves] makes: both on its own arguments, with
    1 as the positive label. *)
Definition curve_call_ok {sample} (y_true : list label) (scores : list float)
  : ∀ R, extcall sample R → Prop :=
  fun R c =>
    match c with
    | roc_curve y s pos | precision_recall_curve y s pos =>
        y = y_true ∧ s = scores ∧ pos = 1
    | _ => False
    end.

(** Which calls [get_metrics_binary] makes, with what, and when. *)
Definition binary_call_ok {sample} (y_true y_pred : list label)
  (probs : matrix float) (include_curves : bool)
  : ∀ R, extcall sample R → Prop :=
  fun R c =>
    match c with
    | accuracy_score yt yp | cohen_kappa_score yt yp
    | matthews_corrcoef yt yp => yt = y_true ∧ yp = y_pred
    | f1_score yt yp avg => yt = y_true ∧ yp = y_pred ∧ avg = None
    | average_precision_score y_true_bin p =>
        any_isnan probs = false ∧
        y_true_bin = get_per_class_matrix y_true (Some [0; 1]) ∧ p = probs
    | roc_auc_score y_true_bin p avg =>
        any_isnan probs = false ∧ length (np_unique y_true) ≠ 1 ∧
        y_true_bin = get_per_class_matrix y_true (Some [0; 1]) ∧ p = probs ∧
        avg = None
    | roc_curve yt s pos | precision_recall_curve yt s pos =>
        include_curves = true ∧ any_isnan probs = false ∧
        yt = y_true ∧ col probs 1 = Some s ∧ pos = 1
    | _ => False
    end.

(** The keys [get_metrics_binary] always sets, and the two curve keys. *)
Definition binary_keys : gset key :=
  {[ ACCURACY; COHEN_KAPPA; F1; MCC; ROC_AUC; AP ]}.

Definition curve_keys : gset key := {[ ROC_CURVE; PR_CURVE ]}.

Definition asks_probabilities {sample R} (c : extcall sample R) : bool :=
  match c with pipeline_predict_proba _ => true | _ => false end.

Definition asks_distances {sample R} (c : extcall sample R) : bool :=
  match c with pipeline_decision_function _ => true | _ => false end.

(** What [test_pipeline] asks of the pipeline: predictions and scores for
    [X]; it never fits and never splits. *)
Definition test_call_ok {sample} (X : list sample)
  : ∀ R, extcall sample R → Prop :=
  fun R c =>
    match c with
    | pipeline_predict X' | pipeline_decision_function X'
    | pipeline_predict_proba X' => X' = X
    | pipeline_fit _ _ | skf_split _ _ _ => False
    | _ => True
    end.


(** ** A sample environment

    Used to exhibit concrete runs.  Accuracy and the points of the two
    curves are computed from their textbook definitions (one point for each
    distinct score used as threshold); the other scores are answered with
    fixed numbers, the pipeline predicts class 0 for every sample, and the
    splitter deals the samples to the folds in turn. *)
Module Env.

Definition ratio (a b : nat) : float :=
  match b with
  | 0 => nan
  | S _ => fin (Qred (Z.of_nat a # Pos.of_nat b))
  end.

Definition accuracy (y_true y_pred : list label) : float :=
  ratio (length (filter (fun p : label * label => p.1 = p.2)
                   (zip y_true y_pred)))
        (length y_true).

Fixpoint insert_threshold (x : float) (l : list float) : list float :=
  match l with
  | [] => [x]
  | y :: l' =>
      if fleb x y then (if fleb y x then l else x :: l)
      else y :: insert_threshold x l'
  end.

(** The distinct scores, ascending. *)
Definition thresholds_of (scores : list float) : list float :=
  foldr insert_threshold [] scores.

(** The samples of class [pos], or of another class, scored at least [t]. *)
Definition hits_at (keep : label → bool) (y_true : list label)
  (scores : list float) (t : float) : nat :=
  length (filter (fun p : label * float => keep p.1 && fleb t p.2)
            (zip y_true scores)).

Definition precision_recall_points (y_true : list label)
  (scores : list float) (pos : nat)
  : list float * list float * list float :=
  let thresholds := thresholds_of scores in
  let tp := hits_at (fun v => v =? pos) y_true scores in
  let fp := hits_at (fun v => negb (v =? pos)) y_true scores in
  let positives := length (filter (fun v => v = pos) y_true) in
  (map (fun t => ratio (tp t) (tp t + fp t)) thresholds ++ [fin 1],
   map (fun t => ratio (tp t) positives) thresholds ++ [fin 0],
   thresholds).

Definition above (x : float) : float :=
  match x with nan => nan | fin q => fin (Qred (q + 1)) end.

Definition roc_points (y_true : list label) (scores : list float)
  (pos : nat) : list float * list float * list float :=
  let thresholds := reverse (thresholds_of scores) in
  let tp := hits_at (fun v => v =? pos) y_true scores in
  let fp := hits_at (fun v => negb (v =? pos)) y_true scores in
  let positives := length (filter (fun v => v = pos) y_true) in
  let negatives := length y_true - positives in
  (fin 0 :: map (fun t => ratio (fp t) negatives) thresholds,
   fin 0 :: map (fun t => ratio (tp t) positives) thresholds,
   above (default (fin 0) (head thresholds)) :: thresholds).

(** Fold [i] of [n] tests the samples whose position is [i] modulo [n]. *)
Definition deal_folds (n len : nat) : list (list nat * list nat) :=
  map (fun i =>
         (filter (fun j => j mod n ≠ i) (seq 0 len),
          filter (fun j => j mod n = i) (seq 0 len)))
      (seq 0 n).

Definition env : handler unit unit :=
  fun R c w =>
    match c in extcall _ R return exn + (R * unit) with
    | accuracy_score y_true y_pred => inr (accuracy y_true y_pred, w)
    | cohen_kappa_score _ _ => inr (fin (1 # 2), w)
    | f1_score _ _ _ => inr (fin (2 # 3), w)
    | matthews_corrcoef _ _ => inr (fin (1 # 2), w)
    | average_precision_score _ _ => inr (fin (3 # 4), w)
    | roc_auc_score _ _ _ => inr (fin (3 # 4), w)
    | roc_curve y s pos => inr (roc_points y s pos, w)
    | precision_recall_curve y s pos =>
        inr (precision_recall_points y s pos, w)
    | pipeline_predict X => inr (replicate (length X) 0, w)
    | pipeline_last_step => inr ("rf"%string, w)
    | pipeline_decision_function X =>
        inr (Vec (replicate (length X) (fin 0)), w)
    | pipeline_predict_proba X =>
        inr (Matrix 2 (replicate (length X) [fin (3 # 4); fin (1 # 4)]), w)
    | pipeline_fit _ _ => inr (tt, w)
    | skf_split n X y =>
        if (2 <=? n) && (n <=? length X) then inr (deal_folds n (length X), w)
        else inl ValueError
    end.

End Env.

(** * Properties *)

(** ** [np.unique] *)

Lemma elem_of_insert_unique x l z :
  z ∈ insert_unique x l ↔ z = x ∨ z ∈ l.
Proof.
  induction l as [|y l IH]; simpl.
  - set_solver.
  - destruct (x <? y) eqn:Hlt; [set_solver|].
    destruct (x =? y) eqn:Heq.
    + apply Nat.eqb_eq in Heq. set_solver.
    + set_solver.
Qed.

Lemma insert_unique_sorted x l :
  StronglySorted lt l → StronglySorted lt (insert_unique x l).
Proof.
  induction 1 as [|y l Hs IH Hy]; simpl.
  - repeat constructor.
  - destruct (x <? y) eqn:Hlt.
    + apply Nat.ltb_lt in Hlt. constructor; [by constructor|].
      constructor; [done|].
      eapply Forall_impl; [exact Hy|]. simpl. lia.
    + destruct (x =? y) eqn:Heq; [by constructor|].
      apply Nat.ltb_ge in Hlt. apply Nat.eqb_neq in Heq.
      constructor; [done|].
      apply Forall_forall. intros z Hz.
      apply elem_of_insert_unique in Hz as [->|Hz]; [lia|].
      by eapply Forall_forall in Hy.
Qed.

Lemma elem_of_np_unique y c : c ∈ np_unique y ↔ c ∈ y.
Proof.
  induction y as [|v y IH]; simpl; [done|].
  rewrite elem_of_insert_unique, IH. set_solver.
Qed.

Lemma np_unique_sorted y : StronglySorted lt (np_unique y).
Proof.
  induction y; simpl; [constructor|by apply insert_unique_sorted].
Qed.

Lemma StronglySorted_lt_NoDup (l : list nat) : StronglySorted lt l → NoDup l.
Proof.
  induction 1 as [|x l Hs IH Hx]; constructor; [|done].
  intros Hin. eapply Forall_forall in Hx; [|done]. lia.
Qed.

Lemma np_unique_NoDup y : NoDup (np_unique y).
Proof. apply StronglySorted_lt_NoDup, np_unique_sorted. Qed.

(** ** [get_per_class_matrix] *)

(** The loop over the classes fills the zero matrix column by column; what it
    leaves is the matrix of the comparisons of each label with each class. *)
Lemma fill_columns (y : list label) (pre cl : list label) :
  foldl (fun y_bin '(i, cls) => set_column y_bin i (equals_int y cls))
    (Matrix (length pre + length cl)
       (map (fun v => map (fun c => Nat.b2n (v =? c)) pre
                      ++ replicate (length cl) 0) y))
    (zip (seq (length pre) (length cl)) cl)
  = Matrix (length pre + length cl)
      (map (fun v => map (fun c => Nat.b2n (v =? c)) (pre ++ cl)) y).
Proof.
  revert pre. induction cl as [|c cl IH]; intros pre; simpl.
  - f_equal. apply map_ext. intros v. by rewrite !app_nil_r.
  - specialize (IH (pre ++ [c])).
    rewrite length_app in IH. simpl in IH.
    replace (length pre + 1) with (S (length pre)) in IH by lia.
    replace (S (length pre) + length cl) with (length pre + S (length cl))
      in IH by lia.
    rewrite <- (assoc_L (++) pre [c] cl) in IH. simpl in IH.
    rewrite <- IH. f_equal.
    unfold set_column, equals_int. simpl. f_equal.
    rewrite zip_with_fmap_l, zip_with_fmap_r, zip_with_diag.
    apply map_ext. intros v.
    rewrite map_app. simpl. rewrite <- (assoc_L (++)). simpl.
    rewrite insert_app_r_alt; rewrite length_map; [|done].
    by rewrite Nat.sub_diag.
Qed.

Lemma get_per_class_matrix_eq (y : list label) classes :
  get_per_class_matrix y classes
  = let cl := or_else classes (np_unique y) in
    Matrix (length cl) (map (fun v => map (fun c => Nat.b2n (v =? c)) cl) y).
Proof.
  unfold get_per_class_matrix. simpl.
  generalize (or_else classes (np_unique y)). intros cl.
  pose proof (fill_columns y [] cl) as H. simpl in H.
  unfold np_zeros, enumerate.
  replace (replicate (length y) (replicate (length cl) 0))
    with (map (fun _ : nat => replicate (length cl) 0) y); [exact H|].
  clear H. induction y as [|v y IH]; simpl; [done|by rewrite IH].
Qed.

Lemma col_comparisons (y cl : list label) n j c :
  cl !! j = Some c →
  col (Matrix n (map (fun v => map (fun c => Nat.b2n (v =? c)) cl) y)) j
  = Some (equals_int y c).
Proof.
  intros Hj. unfold col, equals_int. simpl.
  induction y as [|v y IH]; simpl; [done|].
  rewrite list_lookup_fmap, Hj. simpl.
  unfold col in IH. simpl in IH. by rewrite IH.
Qed.

Lemma column_sum_comparisons (y cl : list label) n j c :
  cl !! j = Some c →
  column_sum (Matrix n (map (fun v => map (fun c => Nat.b2n (v =? c)) cl) y)) j
  = sum_list (equals_int y c).
Proof.
  intros Hj. unfold column_sum, equals_int. simpl.
  rewrite map_map. f_equal. apply map_ext. intros v.
  by rewrite list_lookup_fmap, Hj.
Qed.

Lemma sum_equals_int_pos (y : list label) c :
  c ∈ y → 0 < sum_list (equals_int y c).
Proof.
  induction 1 as [c y|c v y _ IH]; simpl.
  - rewrite Nat.eqb_refl. simpl. lia.
  - lia.
Qed.

Lemma equals_int_absent (y : list label) c :
  c ∉ y → equals_int y c = replicate (length y) 0.
Proof.
  induction y as [|v y IH]; simpl; [done|].
  intros Hc. rewrite IH by set_solver.
  destruct (Nat.eqb_spec v c) as [->|_]; [set_solver|done].
Qed.

Lemma sum_list_replicate_0 n : sum_list (replicate n 0) = 0.
Proof. induction n; simpl; lia. Qed.

Lemma comparisons_one_hot (cl : list label) j v :
  NoDup cl → cl !! j = Some v →
  map (fun c => Nat.b2n (v =? c)) cl = <[j := 1]> (replicate (length cl) 0).
Proof.
  intros Hnd Hj. apply list_eq. intros i.
  rewrite list_lookup_fmap.
  destruct (decide (i = j)) as [->|Hne].
  - rewrite Hj. simpl. rewrite Nat.eqb_refl.
    rewrite list_lookup_insert_eq; [done|].
    rewrite length_replicate. by eapply lookup_lt_Some.
  - rewrite list_lookup_insert_ne by done.
    destruct (cl !! i) as [c|] eqn:Hi; simpl.
    + rewrite lookup_replicate_2 by (by eapply lookup_lt_Some).
      destruct (Nat.eqb_spec v c) as [->|_]; [|done].
      destruct Hne. by eapply NoDup_lookup.
    + symmetry. apply lookup_ge_None. rewrite length_replicate.
      by apply lookup_ge_None.
Qed.

Lemma sum_list_one_hot n j :
  j < n → sum_list (<[j := 1]> (replicate n 0)) = 1.
Proof.
  revert j. induction n as [|n IH]; intros j Hj; [lia|].
  destruct j as [|j]; simpl.
  - by rewrite sum_list_replicate_0.
  - rewrite IH by lia. done.
Qed.

(** C6.  With the class set omitted, [get_per_class_matrix] has one column
    for each of the distinct labels of [y] in ascending order, column [j]
    marking the samples of the [j]-th of them, and no column sums to zero.
    With a non-empty class sequence it has one column for each listed class
    in the listed order, and the column of a class that does not occur in
    [y] is all zero. *)
Theorem get_per_class_matrix_columns (y : list label) :
  (let m := get_per_class_matrix y None in
   StronglySorted lt (np_unique y) ∧
   (∀ c, c ∈ np_unique y ↔ c ∈ y) ∧
   shape1 m = length (np_unique y) ∧
   (∀ j c, np_unique y !! j = Some c → col m j = Some (equals_int y c)) ∧
   (∀ j, j < shape1 m → 0 < column_sum m j))
  ∧
  (∀ c0 cs,
     let classes := c0 :: cs in
     let m := get_per_class_matrix y (Some classes) in
     shape1 m = length classes ∧
     (∀ j c, classes !! j = Some c → col m j = Some (equals_int y c)) ∧
     (∀ j c, classes !! j = Some c → c ∉ y →
        col m j = Some (replicate (length y) 0) ∧ column_sum m j = 0)).
Proof.
  split.
  - rewrite get_per_class_matrix_eq. simpl.
    split; [apply np_unique_sorted|].
    split; [apply elem_of_np_unique|].
    split; [done|].
    split.
    + intros j c Hj. by apply col_comparisons.
    + intros j Hj. apply lookup_lt_is_Some_2 in Hj as [c Hc].
      rewrite (column_sum_comparisons _ _ _ _ c) by done.
      apply sum_equals_int_pos, elem_of_np_unique.
      by eapply list_elem_of_lookup_2.
  - intros c0 cs classes m. subst m classes.
    rewrite get_per_class_matrix_eq. simpl.
    split; [done|]. split.
    + intros j c Hj. by apply (col_comparisons y (c0 :: cs)).
    + intros j c Hj Hc. split.
      * rewrite (col_comparisons y (c0 :: cs) _ j c) by done.
        by rewrite equals_int_absent.
      * rewrite (column_sum_comparisons y (c0 :: cs) _ j c) by done.
        rewrite equals_int_absent by done. apply sum_list_replicate_0.
Qed.

Lemma get_per_class_matrix_columns_witness :
  col (get_per_class_matrix [2; 0; 2] (Some [0; 1; 2])) 1
  = Some (replicate 3 0)
  ∧ column_sum (get_per_class_matrix [2; 0; 2] (Some [0; 1; 2])) 1 = 0.
Proof.
  destruct (get_per_class_matrix_columns [2; 0; 2]) as [_ H].
  destruct (H 0 [1; 2]) as (_ & _ & Habsent).
  apply (Habsent 1 1); [reflexivity|].
  intros Hin. set_solver.
Defined.

(** C9.  Every entry of a matrix returned by [get_per_class_matrix] is 0 or
    1; when the class set is inferred (omitted or empty), the row of a sample
    is zero everywhere except for a single 1 in the column of the sample's
    own label, so that it sums to 1. *)
Theorem get_per_class_matrix_one_hot (y : list label)
  (classes : option (list label)) :
  let m := get_per_class_matrix y classes in
  (∀ row x, row ∈ mrows m → x ∈ row → x = 0 ∨ x = 1)
  ∧
  (classes = None ∨ classes = Some [] →
   ∀ i v, y !! i = Some v →
     ∃ j row,
       np_unique y !! j = Some v ∧
       mrows m !! i = Some row ∧
       row = <[j := 1]> (replicate (shape1 m) 0) ∧
       sum_list row = 1).
Proof.
  rewrite get_per_class_matrix_eq. simpl. split.
  - intros row x Hrow Hx.
    apply list_elem_of_fmap in Hrow as (v & -> & _).
    apply list_elem_of_fmap in Hx as (c & -> & _).
    destruct (v =? c); auto.
  - intros Hcl i v Hi.
    assert (or_else classes (np_unique y) = np_unique y) as ->
      by (by destruct Hcl as [-> | ->]).
    assert (v ∈ np_unique y) as Hv
      by (apply elem_of_np_unique; by eapply list_elem_of_lookup_2).
    apply list_elem_of_lookup_1 in Hv as [j Hj].
    exists j, (map (fun c => Nat.b2n (v =? c)) (np_unique y)).
    split; [done|].
    split; [by rewrite list_lookup_fmap, Hi|].
    rewrite (comparisons_one_hot _ j v (np_unique_NoDup y) Hj).
    split; [done|].
    apply sum_list_one_hot. by eapply lookup_lt_Some.
Qed.

Lemma get_per_class_matrix_one_hot_witness :
  ∃ j row,
    np_unique [2; 0; 2; 5] !! j = Some 5 ∧
    mrows (get_per_class_matrix [2; 0; 2; 5] (Some [])) !! 3 = Some row ∧
    row = [0; 0; 1] ∧ sum_list row = 1.
Proof.
  destruct (get_per_class_matrix_one_hot [2; 0; 2; 5] (Some [])) as [_ H].
  destruct (H (or_intror eq_refl) 3 5 eq_refl) as (j & row & Hj & Hrow & -> & Hs).
  exists j, (<[j:=1]> (replicate 3 0)).
  vm_compute in Hj. destruct j as [|[|[|j]]]; try discriminate.
  repeat split; done.
Defined.

(** C10.  An explicitly supplied empty class sequence is treated as an
    omitted one: the classes are the sorted distinct labels of [y]. *)
Theorem get_per_class_matrix_empty_classes (y : list label) :
  get_per_class_matrix y (Some []) = get_per_class_matrix y None
  ∧ shape1 (get_per_class_matrix y (Some [])) = length (np_unique y).
Proof.
  split; [reflexivity|].
  by rewrite get_per_class_matrix_eq.
Qed.

(** ** [rank_n_accuracy] *)

Lemma insert_by_perm x l : insert_by x l ≡ₚ x :: l.
Proof.
  induction l as [|y l IH]; simpl; [done|].
  destruct (fleb x.2 y.2); [done|].
  rewrite IH. apply Permutation_swap.
Qed.

Lemma argsort_perm row : argsort row ≡ₚ seq 0 (length row).
Proof.
  unfold argsort, enumerate.
  assert (∀ l : list (nat * float), foldr insert_by [] l ≡ₚ l) as Hsort.
  { induction l as [|x l IH]; simpl; [done|].
    by rewrite insert_by_perm, IH. }
  rewrite Hsort, fst_zip; [done|]. by rewrite length_seq.
Qed.

Lemma argsort_length row : length (argsort row) = length row.
Proof. by rewrite argsort_perm, length_seq. Qed.

Lemma elem_of_argsort row i : i ∈ argsort row ↔ i < length row.
Proof. rewrite argsort_perm, elem_of_seq. lia. Qed.

Lemma slice_to_all {A} (l : list A) (k : Z) :
  (Z.of_nat (length l) ≤ k)%Z → slice_to k l = l.
Proof.
  intros Hk. unfold slice_to.
  destruct (Z.leb_spec 0 k); [|lia].
  apply take_ge. lia.
Qed.

Lemma slice_to_0 {A} (l : list A) : slice_to 0 l = [].
Proof. done. Qed.

Lemma slice_to_nonpositive {A} (l : list A) (c : nat) (n : Z) :
  length l = c → (n ≤ 0)%Z → slice_to (Z.of_nat c * n) l = [].
Proof.
  intros Hlen Hn. unfold slice_to.
  destruct (Z.leb_spec 0 (Z.of_nat c * n)).
  - replace (Z.of_nat c * n)%Z with 0%Z by nia. done.
  - assert (n ≤ -1)%Z as Hneg by (destruct (decide (n = 0%Z)); [subst|]; lia).
    assert (Z.of_nat c ≤ - (Z.of_nat c * n))%Z as Hc by nia.
    replace (length l - Z.to_nat (- (Z.of_nat c * n))) with 0 by lia. done.
Qed.

Lemma count_hits_cons v y r rs :
  count_hits (v :: y) (r :: rs)
  = (if bool_decide (v ∈ r) then 1 else 0) + count_hits y rs.
Proof.
  unfold count_hits. simpl. rewrite filter_cons. simpl.
  case_bool_decide; by rewrite decide_bool_decide; case_bool_decide.
Qed.

Section RankLoop.
Context {sample : Type}.

(** The counting loop: with a ranking for every sample it does not fail and
    adds the number of hits to the counter. *)
Lemma count_loop (y1 y2 : list label) (r1 r2 : list (list nat)) (c : nat) :
  length y1 = length r1 → length y2 ≤ length r2 →
  for_each (sample := sample) (seq (length y1) (length y2))
    (fun i count =>
       match (y1 ++ y2) !! i, (r1 ++ r2) !! i with
       | Some y_i, Some r =>
           Ret (if bool_decide (y_i ∈ r) then count + 1 else count)
       | _, _ => Raise IndexError
       end) c
  = Ret (c + count_hits y2 r2).
Proof.
  revert y1 r1 r2 c. induction y2 as [|v y2 IH]; intros y1 r1 r2 c H1 H2.
  - simpl. f_equal. unfold count_hits. simpl. lia.
  - destruct r2 as [|r r2]; simpl in H2; [lia|].
    simpl. rewrite list_lookup_middle by done.
    rewrite list_lookup_middle by done. simpl.
    specialize (IH (y1 ++ [v]) (r1 ++ [r]) r2).
    rewrite !length_app in IH. simpl in IH.
    rewrite <- !(assoc_L (++)) in IH. simpl in IH.
    replace (length y1 + 1) with (S (length y1)) in IH by lia.
    rewrite IH by lia.
    rewrite count_hits_cons. f_equal. case_bool_decide; lia.
Qed.

(** With at least one sample, a ranking for each, and an integer top count,
    [rank_n_accuracy] returns the share of hits; nothing in it checks the
    count against the number of classes. *)
Lemma rank_n_accuracy_returns (y_true : list label) (probs : matrix float)
  (n : number) (k : Z) :
  0 < length y_true → length y_true ≤ shape0 probs →
  top_count (shape1 probs) n = PyInt k →
  rank_n_accuracy (sample := sample) y_true probs n
  = Ret (fin (Qred (Z.of_nat
                      (count_hits y_true
                         (map (slice_to k) (rankings_of probs)))
                    # Pos.of_nat (length y_true)))).
Proof.
  intros HS Hrows Hk. unfold rank_n_accuracy. rewrite Hk. simpl.
  pose proof (count_loop [] y_true [] (map (slice_to k) (rankings_of probs)) 0)
    as Hloop.
  simpl in Hloop. rewrite Hloop; [|done|].
  - simpl. destruct (length y_true); [lia|done].
  - unfold rankings_of. rewrite !length_map. exact Hrows.
Qed.

End RankLoop.

Lemma count_hits_all (y_true : list label) (rankings : list (list nat)) :
  length y_true ≤ length rankings →
  (∀ i v r, y_true !! i = Some v → rankings !! i = Some r → v ∈ r) →
  count_hits y_true rankings = length y_true.
Proof.
  revert rankings. induction y_true as [|v y IH]; intros rs Hlen Hin.
  - done.
  - destruct rs as [|r rs]; simpl in Hlen; [lia|].
    rewrite count_hits_cons. rewrite bool_decide_eq_true_2.
    + simpl. f_equal. apply IH; [lia|].
      intros i w r' Hw Hr'. by apply (Hin (S i)).
    + by apply (Hin 0).
Qed.

Lemma count_hits_none (y_true : list label) (rankings : list (list nat)) :
  Forall (fun r => r = []) rankings → count_hits y_true rankings = 0.
Proof.
  revert rankings. induction y_true as [|v y IH]; intros rs Hrs; [done|].
  destruct rs as [|r rs]; [done|].
  apply Forall_cons in Hrs as [-> Hrs].
  rewrite count_hits_cons, IH by done.
  rewrite bool_decide_eq_false_2; [done|]. set_solver.
Qed.

Lemma Qred_ratio_same (n : nat) :
  0 < n → Qred (Z.of_nat n # Pos.of_nat n) = 1%Q.
Proof.
  intros Hn. change 1%Q with (Qred 1). apply Qred_complete.
  unfold Qeq. simpl.
  rewrite <- (positive_nat_Z (Pos.of_nat n)), Nat2Pos.id by lia. lia.
Qed.

Lemma rankings_of_lookup (probs : matrix float) i r :
  well_shaped probs → rankings_of probs !! i = Some r →
  length r = shape1 probs ∧ ∀ v, v ∈ r ↔ v < shape1 probs.
Proof.
  intros Hwf Hr. unfold rankings_of in Hr.
  rewrite !list_lookup_fmap in Hr.
  destruct (mrows probs !! i) as [row|] eqn:Hrow; [|done].
  simpl in Hr. injection Hr as <-.
  assert (length row = shape1 probs) as Hlen.
  { unfold well_shaped in Hwf. rewrite Forall_forall in Hwf.
    apply Hwf. by eapply list_elem_of_lookup_2. }
  split.
  - by rewrite argsort_length, length_map.
  - intros v. by rewrite elem_of_argsort, length_map, Hlen.
Qed.

Lemma top_count_all_classes (c : nat) :
  top_count c (PyInt (Z.of_nat c)) = PyInt (Z.of_nat c).
Proof.
  unfold top_count. destruct (Z.ltb_spec (Z.of_nat c) 1); [|done].
  f_equal. nia.
Qed.

Lemma slice_rankings_all (probs : matrix float) (k : Z) :
  well_shaped probs → (Z.of_nat (shape1 probs) ≤ k)%Z →
  map (slice_to k) (rankings_of probs) = rankings_of probs.
Proof.
  intros Hwf Hk. apply list_eq. intros i.
  rewrite list_lookup_fmap.
  destruct (rankings_of probs !! i) as [r|] eqn:Hr; [|done].
  simpl. f_equal. apply slice_to_all.
  apply rankings_of_lookup in Hr as [-> _]; done.
Qed.

(** C8, as amended.  For a non-empty label vector whose labels are column
    indices of the [S × C] matrix ([C > 1]), [rank_n_accuracy] with [n = C]
    returns exactly 1.0. *)
Theorem rank_n_accuracy_top_all {sample : Type} (y_true : list label)
  (probs : matrix float) :
  0 < length y_true →
  shape0 probs = length y_true →
  well_shaped probs →
  1 < shape1 probs →
  Forall (fun v => v < shape1 probs) y_true →
  rank_n_accuracy (sample := sample) y_true probs
    (PyInt (Z.of_nat (shape1 probs)))
  = Ret (fin 1).
Proof.
  intros HS Hrows Hwf HC Hlabels.
  rewrite (rank_n_accuracy_returns _ _ _ (Z.of_nat (shape1 probs)));
    [|done|lia|apply top_count_all_classes].
  rewrite slice_rankings_all by (done || lia).
  rewrite count_hits_all.
  - by rewrite Qred_ratio_same.
  - unfold rankings_of. rewrite !length_map. unfold shape0 in Hrows. lia.
  - intros i v r Hv Hr.
    apply rankings_of_lookup in Hr as [_ Hr]; [|done].
    apply Hr. rewrite Forall_forall in Hlabels.
    apply Hlabels. by eapply list_elem_of_lookup_2.
Qed.

Lemma rank_n_accuracy_top_all_witness :
  rank_n_accuracy (sample := unit) [1; 0; 2]
    (Matrix 3 [[fin (1 # 10); fin (7 # 10); fin (2 # 10)];
               [fin (5 # 10); nan; fin (2 # 10)];
               [fin (3 # 10); fin (3 # 10); fin (4 # 10)]])
    (PyInt 3)
  = Ret (fin 1).
Proof.
  apply (rank_n_accuracy_top_all (sample := unit) [1; 0; 2]
           (Matrix 3 [[fin (1 # 10); fin (7 # 10); fin (2 # 10)];
                      [fin (5 # 10); nan; fin (2 # 10)];
                      [fin (3 # 10); fin (3 # 10); fin (4 # 10)]])).
  - simpl. lia.
  - reflexivity.
  - repeat constructor.
  - simpl. lia.
  - repeat constructor.
Defined.

(** C8 as stated fails when a label is not a column index: the label 5 is
    never among the two ranked columns. *)
Lemma rank_n_accuracy_top_all_counterexample :
  let y_true := [5] in
  let probs := Matrix 2 [[fin (1 # 2); fin (1 # 2)]] in
  0 < length y_true ∧ shape0 probs = length y_true ∧ well_shaped probs ∧
  1 < shape1 probs ∧
  rank_n_accuracy (sample := unit) y_true probs
    (PyInt (Z.of_nat (shape1 probs))) = Ret (fin 0) ∧
  rank_n_accuracy (sample := unit) y_true probs
    (PyInt (Z.of_nat (shape1 probs))) ≠ Ret (fin 1).
Proof.
  simpl. split; [lia|]. split; [done|]. split; [repeat constructor|].
  split; [lia|]. split; [reflexivity|]. discriminate.
Qed.

(** C5, as amended.  [rank_n_accuracy] does not check the top count [K] it
    derives from [n]: on a non-empty label vector and an [S × C] matrix it
    returns a result also when [K ≤ 0] or [K > C].  For an integer [n] the
    result is the share of samples whose label is in the Python slice
    [[:K]] of their ranking, which is 0.0 for [K ≤ 0]; for [K = 0], also when
    a proportion rounds to it, the result is 0.0; and for [K > C] it is the
    value for [K = C].  For these counts the slice is empty or the whole
    ranking, so the order of tied columns plays no part; and a proportion
    whose count is 0 has an exact product with [C] within [-1/2, 1/2], where
    the product of the two doubles lies as well. *)
Theorem rank_n_accuracy_unchecked_count {sample : Type}
  (y_true : list label) (probs : matrix float) (n : number) (k : Z) :
  0 < length y_true →
  shape0 probs = length y_true →
  well_shaped probs →
  top_count (shape1 probs) n = PyInt k →
  (k ≤ 0 ∨ Z.of_nat (shape1 probs) < k)%Z →
  (∀ z, n = PyInt z →
     rank_n_accuracy (sample := sample) y_true probs n
     = Ret (fin (Qred (Z.of_nat
                         (count_hits y_true
                            (map (slice_to k) (rankings_of probs)))
                       # Pos.of_nat (length y_true))))
     ∧ ((k ≤ 0)%Z →
        rank_n_accuracy (sample := sample) y_true probs n = Ret (fin 0)))
  ∧ (k = 0%Z →
     rank_n_accuracy (sample := sample) y_true probs n = Ret (fin 0))
  ∧ ((Z.of_nat (shape1 probs) < k)%Z →
     rank_n_accuracy (sample := sample) y_true probs n
     = rank_n_accuracy y_true probs (PyInt (Z.of_nat (shape1 probs)))).
Proof.
  intros HS Hrows Hwf Hk _.
  pose proof (rank_n_accuracy_returns (sample := sample) y_true probs n k
                HS ltac:(lia) Hk) as Hret.
  split; [|split].
  - intros z ->. split; [exact Hret|]. intros Hneg. rewrite Hret.
    rewrite count_hits_none; [done|].
    apply Forall_forall. intros r Hr.
    apply list_elem_of_fmap in Hr as (r' & -> & Hr').
    apply list_elem_of_lookup_1 in Hr' as [i Hi].
    apply rankings_of_lookup in Hi as [Hlen _]; [|done].
    simpl in Hk. destruct (Z.ltb_spec z 1); injection Hk as <-; [|lia].
    apply slice_to_nonpositive; [done|lia].
  - intros ->. rewrite Hret. rewrite count_hits_none; [done|].
    apply Forall_forall. intros r Hr.
    apply list_elem_of_fmap in Hr as (r' & -> & _). done.
  - intros Hbig. rewrite Hret.
    rewrite (rank_n_accuracy_returns _ _ _ (Z.of_nat (shape1 probs)));
      [|done|lia|apply top_count_all_classes].
    rewrite !slice_rankings_all by (done || lia). done.
Qed.

Lemma rank_n_accuracy_unchecked_count_witness :
  rank_n_accuracy (sample := unit) [0; 1]
    (Matrix 2 [[fin (9 # 10); fin (1 # 10)]; [fin (6 # 10); fin (4 # 10)]])
    (PyInt 0)
  = Ret (fin 0).
Proof.
  refine (proj1 (proj2
    (rank_n_accuracy_unchecked_count (sample := unit) [0; 1]
       (Matrix 2 [[fin (9 # 10); fin (1 # 10)];
                  [fin (6 # 10); fin (4 # 10)]])
       (PyInt 0) 0 _ _ _ _ _)) _).
  - simpl. lia.
  - reflexivity.
  - repeat constructor.
  - reflexivity.
  - left. lia.
  - reflexivity.
Defined.

(** C5 as stated fails: with [K = 0] and with [K = 3 > C = 2] the function
    returns a value instead of raising. *)
Lemma rank_n_accuracy_unchecked_count_counterexample :
  let y_true := [0] in
  let probs := Matrix 2 [[fin (1 # 2); fin (1 # 2)]] in
  top_count (shape1 probs) (PyInt 0) = PyInt 0 ∧
  rank_n_accuracy (sample := unit) y_true probs (PyInt 0) = Ret (fin 0) ∧
  top_count (shape1 probs) (PyInt 3) = PyInt 3 ∧
  rank_n_accuracy (sample := unit) y_true probs (PyInt 3) = Ret (fin 1) ∧
  ¬ (∃ e, rank_n_accuracy (sample := unit) y_true probs (PyInt 0) = Raise e) ∧
  ¬ (∃ e, rank_n_accuracy (sample := unit) y_true probs (PyInt 3) = Raise e).
Proof.
  simpl. repeat split; try reflexivity; intros [e He]; discriminate.
Qed.

(** ** Runs *)

Lemma run_bind {sample W A B} (h : handler sample W) (p : prog sample A)
  (f : A → prog sample B) (w : W) :
  run h (bind p f) w
  = match run h p w with
    | inl e => inl e
    | inr (a, w') => run h (f a) w'
    end.
Proof.
  revert w. induction p as [a|e|R c k IH]; intros w; simpl; try done.
  destruct (h R c w) as [e|[r w']]; [done|]. apply IH.
Qed.

Lemma any_isnan_true (probs : matrix float) :
  any_isnan probs = true ↔ ∃ row, row ∈ mrows probs ∧ nan ∈ row.
Proof.
  unfold any_isnan. rewrite existsb_exists. split.
  - intros (row & Hrow & Hnan). exists row.
    apply list_elem_of_In in Hrow. split; [done|].
    apply existsb_exists in Hnan as (x & Hx & Hnan).
    apply list_elem_of_In in Hx. by destruct x.
  - intros (row & Hrow & Hnan). exists row.
    split; [by apply list_elem_of_In|].
    apply existsb_exists. exists nan. split; [by apply list_elem_of_In|done].
Qed.

Lemma any_isnan_false (probs : matrix float) :
  any_isnan probs = false ↔ ∀ row, row ∈ mrows probs → nan ∉ row.
Proof.
  rewrite <- not_true_iff_false, any_isnan_true. split.
  - intros Hno row Hrow Hnan. apply Hno. eauto.
  - intros Hno (row & Hrow & Hnan). by eapply Hno.
Qed.

Lemma np_unique_single (y : list label) c :
  y ≠ [] → (∀ v, v ∈ y → v = c) → np_unique y = [c].
Proof.
  induction y as [|v y IH]; intros Hne Hall; [done|].
  assert (v = c) as -> by (apply Hall; set_solver).
  simpl. destruct y as [|v' y]; [done|].
  rewrite IH; [|done|intros; apply Hall; set_solver].
  simpl. by rewrite Nat.ltb_irrefl, Nat.eqb_refl.
Qed.

(** ** [get_metrics_binary] *)

Lemma get_metrics_binary_untrusted {sample} (y_true y_pred : list label)
  (probs : matrix float) (include_curves : bool) :
  any_isnan probs = true →
  get_metrics_binary (sample := sample) y_true y_pred probs include_curves
  = label_metrics_only y_true y_pred.
Proof. intros Hnan. unfold get_metrics_binary. by rewrite Hnan. Qed.

(** C1.  When an entry of the probability matrix is NaN, a run of
    [get_metrics_binary] is a run of the four label metrics alone: the
    mapping it returns holds the answers of accuracy, Cohen's kappa, F1 and
    Matthews correlation to the true and predicted labels, NaN for ROC-AUC
    and average precision, and nothing else, so no curve key, whether or not
    curves were requested. *)
Theorem get_metrics_binary_nan_probs {sample W} (h : handler sample W)
  (y_true y_pred : list label) (probs : matrix float) (include_curves : bool)
  (w w' : W) (r : gmap key leaf) :
  (∃ row, row ∈ mrows probs ∧ nan ∈ row) →
  run h (get_metrics_binary y_true y_pred probs include_curves) w
  = inr (r, w') →
  ∃ accuracy kappa f1 mcc w1 w2 w3,
    h _ (accuracy_score y_true y_pred) w = inr (accuracy, w1) ∧
    h _ (cohen_kappa_score y_true y_pred) w1 = inr (kappa, w2) ∧
    h _ (f1_score y_true y_pred None) w2 = inr (f1, w3) ∧
    h _ (matthews_corrcoef y_true y_pred) w3 = inr (mcc, w') ∧
    r = {[ ACCURACY := Score accuracy;
           COHEN_KAPPA := Score kappa;
           F1 := Score f1;
           MCC := Score mcc;
           ROC_AUC := Score nan;
           AP := Score nan ]} ∧
    r !! ROC_AUC = Some (Score nan) ∧
    r !! AP = Some (Score nan) ∧
    r !! ROC_CURVE = None ∧
    r !! PR_CURVE = None.
Proof.
  intros Hnan%any_isnan_true Hrun.
  rewrite get_metrics_binary_untrusted in Hrun by done.
  unfold label_metrics_only in Hrun. simpl in Hrun.
  destruct (h _ (accuracy_score y_true y_pred) w)
    as [?|[accuracy w1]] eqn:H1; [done|].
  destruct (h _ (cohen_kappa_score y_true y_pred) w1)
    as [?|[kappa w2]] eqn:H2; [done|].
  destruct (h _ (f1_score y_true y_pred None) w2)
    as [?|[f1 w3]] eqn:H3; [done|].
  destruct (h _ (matthews_corrcoef y_true y_pred) w3)
    as [?|[mcc w4]] eqn:H4; [done|].
  injection Hrun as <- <-.
  exists accuracy, kappa, f1, mcc, w1, w2, w3.
  repeat split; done.
Qed.

Lemma get_metrics_binary_nan_probs_witness :
  let probs := Matrix 2 [[fin (9 # 10); fin (1 # 10)]; [nan; fin (8 # 10)];
                         [fin (7 # 10); fin (3 # 10)];
                         [fin (6 # 10); fin (4 # 10)]] in
  let r : gmap key leaf :=
    {[ ACCURACY := Score (fin (3 # 4)); COHEN_KAPPA := Score (fin (1 # 2));
       F1 := Score (fin (2 # 3)); MCC := Score (fin (1 # 2));
       ROC_AUC := Score nan; AP := Score nan ]} in
  (∃ row, row ∈ mrows probs ∧ nan ∈ row) ∧
  run Env.env (get_metrics_binary [0; 1; 0; 1] [0; 1; 0; 0] probs true) tt
  = inr (r, tt) ∧
  r !! ROC_CURVE = None ∧ r !! PR_CURVE = None.
Proof.
  intros probs r.
  assert (∃ row, row ∈ mrows probs ∧ nan ∈ row) as Hnan.
  { exists [nan; fin (8 # 10)]. split; set_solver. }
  assert (run Env.env
            (get_metrics_binary [0; 1; 0; 1] [0; 1; 0; 0] probs true) tt
          = inr (r, tt)) as Hrun by (vm_compute; reflexivity).
  destruct (get_metrics_binary_nan_probs Env.env _ _ _ _ _ _ _ Hnan Hrun)
    as (? & ? & ? & ? & ? & ? & ? & _ & _ & _ & _ & _ & _ & _ & Hroc & Hpr).
  auto.
Defined.

(** C3.  When the true labels are all of one class and no probability is
    NaN, the mapping [get_metrics_binary] returns has NaN for ROC-AUC, and
    for average precision the answer of the primitive, a finite number in
    [0, 1] by the primitive's contract. *)
Theorem get_metrics_binary_single_class {sample W} (h : handler sample W)
  (y_true y_pred : list label) (probs : matrix float) (include_curves : bool)
  (c : label) (w w' : W) (r : gmap key leaf) :
  y_true ≠ [] →
  (∀ v, v ∈ y_true → v = c) →
  (∀ row, row ∈ mrows probs → nan ∉ row) →
  average_precision_contract h →
  run h (get_metrics_binary y_true y_pred probs include_curves) w
  = inr (r, w') →
  r !! ROC_AUC = Some (Score nan) ∧
  ∃ ap, r !! AP = Some (Score ap) ∧ unit_interval ap.
Proof.
  intros Hne Hall Hnan%any_isnan_false Hap Hrun.
  unfold get_metrics_binary in Hrun.
  rewrite Hnan, (np_unique_single y_true c Hne Hall) in Hrun.
  simpl in Hrun.
  destruct (h _ (accuracy_score y_true y_pred) w)
    as [?|[accuracy w1]]; [done|].
  destruct (h _ (cohen_kappa_score y_true y_pred) w1)
    as [?|[kappa w2]]; [done|].
  destruct (h _ (f1_score y_true y_pred None) w2)
    as [?|[f1 w3]]; [done|].
  destruct (h _ (matthews_corrcoef y_true y_pred) w3)
    as [?|[mcc w4]]; [done|].
  destruct (h _ (average_precision_score _ probs) w4)
    as [?|[ap w5]] eqn:Hcall; [done|].
  apply Hap in Hcall; [|done].
  destruct include_curves.
  - rewrite run_bind in Hrun.
    destruct (run h (column probs 1) w5) as [?|[scores w6]]; [done|].
    simpl in Hrun.
    destruct (h _ (roc_curve y_true scores 1) w6)
      as [?|[roc w7]]; [done|].
    destruct (h _ (precision_recall_curve y_true scores 1) w7)
      as [?|[pr w8]]; [done|].
    injection Hrun as <- <-. split; [reflexivity|].
    exists ap. split; [reflexivity|done].
  - injection Hrun as <- <-. split; [reflexivity|].
    exists ap. split; [reflexivity|done].
Qed.

Lemma env_average_precision : average_precision_contract Env.env.
Proof.
  intros y_true_bin probs w x w' _ Hcall. injection Hcall as <- <-.
  exists (3 # 4)%Q. split; [done|]. split; discriminate.
Qed.

Lemma get_metrics_binary_single_class_witness :
  let probs := Matrix 2 [[fin (1 # 10); fin (9 # 10)];
                         [fin (2 # 10); fin (8 # 10)];
                         [fin (6 # 10); fin (4 # 10)]] in
  ∃ r, run Env.env (get_metrics_binary [1; 1; 1] [1; 1; 0] probs true) tt
       = inr (r, tt) ∧
       r !! ROC_AUC = Some (Score nan) ∧
       ∃ ap, r !! AP = Some (Score ap) ∧ unit_interval ap.
Proof.
  intros probs.
  destruct (run Env.env (get_metrics_binary [1; 1; 1] [1; 1; 0] probs true) tt)
    as [e|[r []]] eqn:Hrun; [vm_compute in Hrun; discriminate|].
  exists r. split; [done|].
  apply (get_metrics_binary_single_class Env.env [1; 1; 1] [1; 1; 0] probs
           true 1 tt tt r).
  - done.
  - set_solver.
  - intros row Hrow Hnan.
    repeat (apply elem_of_cons in Hrow as [->|Hrow];
            [set_solver|]); set_solver.
  - apply env_average_precision.
  - exact Hrun.
Defined.

(** ** [get_pr_roc_curves] *)

(** The function hands on what the two primitives return, sequence by
    sequence. *)
Lemma get_pr_roc_curves_run {sample W} (h : handler sample W)
  (y_true : list label) (scores : list float) (w w' : W)
  (r : gmap key leaf) :
  run h (get_pr_roc_curves y_true scores) w = inr (r, w') →
  ∃ fprs tprs roc_thr precisions recalls pr_thr w1,
    h _ (roc_curve y_true scores 1) w = inr ((fprs, tprs, roc_thr), w1) ∧
    h _ (precision_recall_curve y_true scores 1) w1
    = inr ((precisions, recalls, pr_thr), w') ∧
    r = {[ ROC_CURVE := Curve {[ "fprs" := fprs; "tprs" := tprs;
                                 "thresholds" := roc_thr ]};
           PR_CURVE := Curve {[ "precisions" := precisions;
                                "recalls" := recalls;
                                "thresholds" := pr_thr ]} ]}.
Proof.
  unfold get_pr_roc_curves. simpl. intros Hrun.
  destruct (h _ (roc_curve y_true scores 1) w)
    as [?|[[[fprs tprs] roc_thr] w1]] eqn:Hroc; [done|].
  destruct (h _ (precision_recall_curve y_true scores 1) w1)
    as [?|[[[precisions recalls] pr_thr] w2]] eqn:Hpr; [done|].
  injection Hrun as <- <-.
  exists fprs, tprs, roc_thr, precisions, recalls, pr_thr, w1.
  split; [done|]. split; [done|].
  apply map_eq. intros k. destruct k; reflexivity.
Qed.

(** C4, as amended.  With the primitives returning arrays of the documented
    shapes, the ROC curve [get_pr_roc_curves] returns consists of three
    sequences of one length, and the precision-recall curve of precisions and
    recalls of one length and a thresholds sequence one entry shorter. *)
Theorem get_pr_roc_curves_lengths {sample W} (h : handler sample W)
  (y_true : list label) (scores : list float) (w w' : W)
  (r : gmap key leaf) :
  curve_shapes_contract h →
  run h (get_pr_roc_curves y_true scores) w = inr (r, w') →
  (∃ roc, r !! ROC_CURVE = Some roc ∧ equal_lengths "fprs" "tprs" roc) ∧
  (∃ precisions recalls thresholds,
     r !! PR_CURVE
     = Some (Curve {[ "precisions" := precisions; "recalls" := recalls;
                      "thresholds" := thresholds ]}) ∧
     length precisions = length recalls ∧
     length precisions = S (length thresholds)).
Proof.
  intros [Hroc Hpr] Hrun.
  apply get_pr_roc_curves_run in Hrun
    as (fprs & tprs & roc_thr & precisions & recalls & pr_thr & w1
        & Hcall1 & Hcall2 & ->).
  apply Hroc in Hcall1 as [Hf Ht]. apply Hpr in Hcall2 as [Hp Hr].
  split.
  - eexists. split; [reflexivity|].
    exists fprs, tprs, roc_thr. repeat split; done.
  - exists precisions, recalls, pr_thr.
    split; [reflexivity|]. split; congruence.
Qed.

Lemma env_curve_shapes : curve_shapes_contract Env.env.
Proof.
  split.
  - intros y s pos w fpr tpr thr w' Hcall. simpl in Hcall.
    injection Hcall as <- <- <- <-. simpl. by rewrite !length_map.
  - intros y s pos w precision recall thr w' Hcall. simpl in Hcall.
    injection Hcall as <- <- <- <-.
    rewrite !length_app, !length_map. simpl. lia.
Qed.

Lemma get_pr_roc_curves_lengths_witness :
  let y_true := [0; 1; 1; 0] in
  let scores := [fin (1 # 10); fin (4 # 10); fin (35 # 100); fin (8 # 10)] in
  ∃ r, run Env.env (get_pr_roc_curves y_true scores) tt = inr (r, tt) ∧
       (∃ roc, r !! ROC_CURVE = Some roc ∧ equal_lengths "fprs" "tprs" roc) ∧
       (∃ precisions recalls thresholds,
          r !! PR_CURVE
          = Some (Curve {[ "precisions" := precisions; "recalls" := recalls;
                           "thresholds" := thresholds ]}) ∧
          length precisions = length recalls ∧
          length precisions = S (length thresholds)).
Proof.
  intros y_true scores.
  destruct (run Env.env (get_pr_roc_curves y_true scores) tt)
    as [e|[r []]] eqn:Hrun; [vm_compute in Hrun; discriminate|].
  exists r. split; [done|].
  exact (get_pr_roc_curves_lengths Env.env y_true scores tt tt r
           env_curve_shapes Hrun).
Defined.

(** C4 as stated fails for the precision-recall curve: for the labels
    [0, 1] scored [0.1, 0.9] the curve has three precisions and three
    recalls but two thresholds. *)
Lemma get_pr_roc_curves_lengths_counterexample :
  let pr := Curve {[ "precisions" := [fin (1 # 2); fin 1; fin 1];
                     "recalls" := [fin 1; fin 1; fin 0];
                     "thresholds" := [fin (1 # 10); fin (9 # 10)] ]} in
  ∃ r, run Env.env
         (get_pr_roc_curves [0; 1] [fin (1 # 10); fin (9 # 10)]) tt
       = inr (r, tt) ∧
       r !! PR_CURVE = Some pr ∧
       ¬ equal_lengths "precisions" "recalls" pr.
Proof.
  intros pr. eexists. split; [vm_compute; reflexivity|].
  split; [vm_compute; reflexivity|].
  intros (xs & ys & thr & Hx & _ & Ht & Hlen & _).
  vm_compute in Hx. vm_compute in Ht.
  injection Hx as <-. injection Ht as <-. discriminate.
Qed.

(** ** Calls of a program *)

Section CallLemmas.
Context {sample : Type}.
Implicit Types P : ∀ R, extcall sample R → Prop.

Lemma all_calls_bind {A B} P (p : prog sample A) (f : A → prog sample B) :
  all_calls P p → (∀ a, all_calls P (f a)) → all_calls P (bind p f).
Proof.
  intros Hp Hf. induction Hp as [a|e|R c k Hc _ IH]; simpl.
  - apply Hf.
  - constructor.
  - constructor; [done|]. intros r. apply IH.
Qed.

Lemma all_calls_of_call {R} P (c : extcall sample R) :
  P R c → all_calls P (call c).
Proof. intros Hc. constructor; [done|]. intros r. constructor. Qed.

Lemma all_calls_for_each {I S} P (items : list I)
  (body : I → S → prog sample S) (s : S) :
  (∀ i s, all_calls P (body i s)) → all_calls P (for_each items body s).
Proof.
  intros Hbody. revert s. induction items as [|i items IH]; intros s; simpl.
  - constructor.
  - apply all_calls_bind; [apply Hbody|]. apply IH.
Qed.

Lemma all_calls_column {A} P (m : matrix A) i :
  all_calls P (column (sample := sample) m i).
Proof.
  unfold column. destruct (i <? shape1 m); [|constructor].
  destruct (col m i); constructor.
Qed.

Lemma all_calls_column_stack2 {A} P (a b : list A) :
  all_calls P (column_stack2 (sample := sample) a b).
Proof. unfold column_stack2. destruct (_ =? _); constructor. Qed.

Lemma all_calls_rank_n_accuracy P y_true probs n :
  all_calls P (rank_n_accuracy (sample := sample) y_true probs n).
Proof.
  unfold rank_n_accuracy. apply all_calls_bind.
  - destruct (top_count _ _); constructor.
  - intros rankings. apply all_calls_bind.
    + apply all_calls_for_each. intros i count.
      destruct (y_true !! i); [|constructor].
      destruct (rankings !! i); constructor.
    + intros count. destruct (length y_true); constructor.
Qed.

Lemma all_calls_get_pr_roc_curves P y_true scores :
  (∀ R (c : extcall sample R), names_average c = false → P R c) →
  all_calls P (get_pr_roc_curves y_true scores).
Proof.
  intros HP. unfold get_pr_roc_curves.
  apply all_calls_bind; [by apply all_calls_of_call, HP|]. intros roc.
  apply all_calls_bind; [by apply all_calls_of_call, HP|]. intros pr.
  constructor.
Qed.

Lemma all_calls_get_metrics_binary P y_true y_pred probs include_curves :
  (∀ R (c : extcall sample R), names_average c = false → P R c) →
  all_calls P (get_metrics_binary y_true y_pred probs include_curves).
Proof.
  intros HP. unfold get_metrics_binary.
  apply all_calls_bind; [by apply all_calls_of_call, HP|]. intros accuracy.
  apply all_calls_bind; [by apply all_calls_of_call, HP|]. intros kappa.
  apply all_calls_bind; [by apply all_calls_of_call, HP|]. intros f1.
  apply all_calls_bind; [by apply all_calls_of_call, HP|]. intros mcc.
  destruct (negb (any_isnan probs)); [|constructor].
  apply all_calls_bind; [by apply all_calls_of_call, HP|]. intros ap.
  apply all_calls_bind.
  - destruct (negb _); [|constructor].
    apply all_calls_bind; [by apply all_calls_of_call, HP|]. intros auc.
    constructor.
  - intros results. destruct include_curves; [|constructor].
    apply all_calls_bind; [apply all_calls_column|]. intros scores.
    apply all_calls_bind; [by apply all_calls_get_pr_roc_curves|].
    intros curves. constructor.
Qed.

Lemma may_call_bind_l {A B R} (p : prog sample A) (f : A → prog sample B)
  (c : extcall sample R) :
  may_call p R c → may_call (bind p f) R c.
Proof.
  induction 1 as [R c k|R c k r R' c' _ IH]; simpl.
  - constructor.
  - by eapply may_call_later.
Qed.

Lemma may_call_bind_r {A B R} (p : prog sample A) (f : A → prog sample B)
  (a : A) (c : extcall sample R) :
  may_return p a → may_call (f a) R c → may_call (bind p f) R c.
Proof.
  intros Hp Hc. induction Hp as [a|R' c' k r a _ IH]; simpl.
  - done.
  - eapply may_call_later. by apply IH.
Qed.

Lemma may_return_of_call {R} (c : extcall sample R) (r : R) :
  may_return (call c) r.
Proof. eapply may_return_call. constructor. Qed.

End CallLemmas.

(** ** [get_metrics_multiclass] *)

Lemma take_columns_restricted {sample} (probs : matrix float)
  (idx : list nat) :
  match take_columns (sample := sample) probs idx with
  | Ret filtered => restricted_to idx probs filtered
  | Raise _ => True
  | Call _ _ => False
  end.
Proof.
  unfold take_columns. destruct (forallb _ idx); [|done].
  destruct (mapM _ (mrows probs)) as [rows|] eqn:Hrows; [|done].
  split; [done|]. simpl.
  apply mapM_Some in Hrows.
  eapply Forall2_impl; [exact Hrows|].
  intros row row' Hrow. simpl in Hrow. by apply mapM_Some in Hrow.
Qed.

Lemma take_columns_returns {sample} (probs : matrix float)
  (idx : list nat) :
  well_shaped probs → Forall (fun c => c < shape1 probs) idx →
  ∃ filtered, take_columns (sample := sample) probs idx = Ret filtered.
Proof.
  intros Hwf Hidx. unfold take_columns.
  rewrite (proj2 (forallb_forall _ _)).
  2:{ intros c Hc. apply Nat.ltb_lt. rewrite Forall_forall in Hidx.
      apply Hidx. by apply list_elem_of_In. }
  destruct (mapM _ (mrows probs)) as [rows|] eqn:Hrows; [eauto|].
  exfalso. apply mapM_None, Exists_exists in Hrows as (row & Hrow & Hnone).
  apply mapM_None, Exists_exists in Hnone as (c & Hc & Hnone).
  apply lookup_ge_None in Hnone.
  unfold well_shaped in Hwf.
  rewrite Forall_forall in Hwf. rewrite Forall_forall in Hidx.
  specialize (Hwf row Hrow). specialize (Hidx c Hc). lia.
Qed.

Lemma inferred_shape (y : list label) :
  shape1 (get_per_class_matrix y None) = length (np_unique y).
Proof. by rewrite get_per_class_matrix_eq. Qed.

Lemma inferred_columns_positive (y : list label) j :
  j < shape1 (get_per_class_matrix y None) →
  0 < column_sum (get_per_class_matrix y None) j.
Proof.
  rewrite get_per_class_matrix_eq. simpl. intros Hj.
  apply lookup_lt_is_Some_2 in Hj as [c Hc].
  rewrite (column_sum_comparisons _ _ _ _ c) by done.
  apply sum_equals_int_pos, elem_of_np_unique.
  by eapply list_elem_of_lookup_2.
Qed.

Lemma unnamed_average_ok {sample} (y_true : list label)
  (probs : matrix float) R (c : extcall sample R) :
  names_average c = false → auc_arguments_ok y_true probs R c.
Proof. destruct c; try done. by destruct avg. Qed.

Lemma np_unique_nonempty (y : list label) :
  0 < length (np_unique y) → 0 < length y.
Proof. destruct y; simpl; lia. Qed.

(** C2.  Every call of the ROC-AUC primitive that [get_metrics_multiclass]
    itself makes (the two calls that name the averaging) passes an indicator
    matrix with one column for each class present in the true labels, every
    column with a positive sum, and a probability matrix that holds of each
    row exactly the columns of those classes, in ascending order of the
    column index.  With at least two distinct true classes, no NaN, labels
    that are column indices and an [S × C] matrix, the two calls are made. *)
Theorem get_metrics_multiclass_auc_arguments {sample : Type}
  (y_true y_pred : list label) (probs : matrix float)
  (include_per_class include_curves : bool) :
  StronglySorted lt (np_unique y_true) ∧
  (∀ c, c ∈ np_unique y_true ↔ c ∈ y_true) ∧
  all_calls (auc_arguments_ok y_true probs)
    (get_metrics_multiclass (sample := sample) y_true y_pred probs
       include_per_class include_curves) ∧
  (1 < length (np_unique y_true) →
   (∀ row, row ∈ mrows probs → nan ∉ row) →
   shape0 probs = length y_true →
   well_shaped probs →
   Forall (fun v => v < shape1 probs) y_true →
   ∃ filtered_probs,
     ∀ avg,
       may_call
         (get_metrics_multiclass (sample := sample) y_true y_pred probs
            include_per_class include_curves)
         _ (roc_auc_score (get_per_class_matrix y_true None) filtered_probs
              (Some avg))).
Proof.
  split; [apply np_unique_sorted|].
  split; [apply elem_of_np_unique|].
  split.
  - unfold get_metrics_multiclass.
    apply all_calls_bind; [apply all_calls_of_call; exact I|]. intros accuracy.
    apply all_calls_bind; [apply all_calls_of_call; exact I|]. intros kappa.
    apply all_calls_bind; [apply all_calls_of_call; exact I|]. intros f1_micro.
    apply all_calls_bind; [apply all_calls_of_call; exact I|]. intros f1_macro.
    apply all_calls_bind; [apply all_calls_rank_n_accuracy|]. intros rank.
    apply all_calls_bind.
    + destruct (negb _); [|constructor].
      pose proof (take_columns_restricted (sample := sample) probs
                    (np_unique y_true)) as Hres.
      destruct (take_columns probs (np_unique y_true))
        as [filtered|e|R c k]; [|constructor|done].
      assert (auc_arguments_ok (sample := sample) y_true probs _
                (roc_auc_score (get_per_class_matrix y_true None) filtered
                   (Some micro))) as Hok.
      { split; [done|]. split; [apply inferred_shape|].
        split; [apply inferred_columns_positive|done]. }
      simpl.
      constructor; [exact Hok|]. intros auc_micro. simpl.
      constructor; [exact Hok|]. intros auc_macro. constructor.
    + intros results. destruct (_ || _); [|constructor].
      apply all_calls_for_each. intros cls res.
      apply all_calls_bind; [apply all_calls_column|]. intros probs_cls.
      apply all_calls_bind; [apply all_calls_column_stack2|].
      intros class_pred_probs.
      apply all_calls_bind; [apply all_calls_column|]. intros y_true_cls.
      apply all_calls_bind; [apply all_calls_column|]. intros y_pred_cls.
      apply all_calls_bind; [|constructor].
      apply all_calls_get_metrics_binary. apply unnamed_average_ok.
  - intros Hclasses Hnan%any_isnan_false Hrows Hwf Hlabels.
    destruct (take_columns_returns (sample := sample) probs
                (np_unique y_true) Hwf) as [filtered Hfiltered].
    { apply Forall_forall. intros c Hc.
      apply (proj1 (elem_of_np_unique _ _)) in Hc.
      rewrite Forall_forall in Hlabels. by apply Hlabels. }
    exists filtered. intros avg.
    unfold get_metrics_multiclass.
    eapply may_call_bind_r; [apply (may_return_of_call _ nan)|].
    eapply may_call_bind_r; [apply (may_return_of_call _ nan)|].
    eapply may_call_bind_r; [apply (may_return_of_call _ nan)|].
    eapply may_call_bind_r; [apply (may_return_of_call _ nan)|].
    rewrite (rank_n_accuracy_returns _ _ _
               (py_round (inject_Z (Z.of_nat (shape1 probs)) * (33 # 100))));
      [|apply np_unique_nonempty; lia|lia|reflexivity].
    simpl. apply may_call_bind_l.
    rewrite Hnan, Hfiltered.
    destruct (Nat.eqb_spec (length (np_unique y_true)) 1) as [?|_]; [lia|].
    simpl. destruct avg.
    + apply may_call_here.
    + eapply (may_call_later _ _ _ nan). apply may_call_here.
Qed.

Lemma get_metrics_multiclass_auc_arguments_witness :
  let y_true := [0; 2; 2] in
  let probs := Matrix 3 [[fin (6 # 10); fin (3 # 10); fin (1 # 10)];
                         [fin (2 # 10); fin (3 # 10); fin (5 # 10)];
                         [fin (5 # 10); fin (1 # 10); fin (4 # 10)]] in
  ∃ filtered_probs,
    ∀ avg,
      may_call
        (get_metrics_multiclass (sample := unit) y_true [0; 2; 0] probs
           false false)
        _ (roc_auc_score (get_per_class_matrix y_true None) filtered_probs
             (Some avg)).
Proof.
  intros y_true probs.
  apply (proj2 (proj2 (proj2
    (get_metrics_multiclass_auc_arguments (sample := unit) y_true [0; 2; 0]
       probs false false)))).
  - simpl. lia.
  - intros row Hrow Hnan.
    repeat (apply elem_of_cons in Hrow as [->|Hrow]; [set_solver|]).
    set_solver.
  - reflexivity.
  - repeat constructor.
  - repeat constructor.
Defined.

(** ** [cross_validate_pipeline] *)

Lemma summary_row_lookup (metrics : list key) (res : gmap key value) m :
  m ∈ metrics → summary_row metrics res !! m = Some (res !! m).
Proof.
  unfold summary_row. induction metrics as [|m0 metrics IH]; intros Hm.
  - set_solver.
  - simpl. destruct (decide (m0 = m)) as [->|Hne].
    + by rewrite lookup_insert_eq.
    + rewrite lookup_insert_ne by done. apply IH. set_solver.
Qed.

Lemma summary_row_keys (metrics : list key) (res : gmap key value) m :
  is_Some (summary_row metrics res !! m) → m ∈ metrics.
Proof.
  unfold summary_row. induction metrics as [|m0 metrics IH]; simpl.
  - rewrite lookup_empty. by intros [? ?].
  - destruct (decide (m0 = m)) as [->|Hne]; [set_solver|].
    rewrite lookup_insert_ne by done. set_solver.
Qed.

Lemma df_append_summary_row (df : DataFrame) (res : gmap key value) :
  df_append df [summary_row (columns df) res]
  = MkDataFrame (columns df) (records df ++ [summary_row (columns df) res]).
Proof.
  unfold df_append. f_equal. simpl. rewrite app_nil_r.
  match goal with
  | |- _ ++ ?l = _ => assert (l = []) as ->; [|by rewrite app_nil_r]
  end.
  apply elem_of_nil_inv. intros m Hm.
  apply list_elem_of_filter in Hm as [Hnew Hm]. apply Hnew.
  apply elem_of_remove_dups, list_elem_of_fmap in Hm as ([m' c] & -> & Hm).
  apply elem_of_map_to_list in Hm. simpl.
  apply (summary_row_keys _ res). by eexists.
Qed.

Section FoldLoop.
Context {sample W : Type} (h : handler sample W).
Context (X : list sample) (y : list label) (binary : bool) (kw : kwargs).
Context (metrics : list key).

Lemma take_rows_run {A B} (a : list A) (idx : list nat)
  (f : list A → prog sample B) (w w' : W) (b : B) :
  run h (bind (take_rows a idx) f) w = inr (b, w') →
  ∃ rows, take_rows (sample := sample) a idx = Ret rows ∧
          run h (f rows) w = inr (b, w').
Proof.
  unfold take_rows. destruct (mapM _ idx) as [rows|]; [|done].
  simpl. eauto.
Qed.

(** One turn of the loop adds the row of the fold's result to the table and
    the result to the list. *)
Lemma fold_step_run fold df results w df' results' w' :
  columns df = metrics →
  run h (fold_step X y binary kw metrics fold (df, results)) w
  = inr ((df', results'), w') →
  ∃ res,
    fold_result h X y binary kw fold res ∧
    df' = MkDataFrame metrics (records df ++ [summary_row metrics res]) ∧
    results' = results ++ [res].
Proof.
  intros Hcols Hrun. destruct fold as [train_index test_index].
  unfold fold_step in Hrun.
  apply take_rows_run in Hrun as (X_train & _ & Hrun). cbn beta in Hrun.
  apply take_rows_run in Hrun as (y_train & _ & Hrun). cbn beta in Hrun.
  rewrite run_bind in Hrun. cbn [run call] in Hrun.
  destruct (h _ (pipeline_fit X_train y_train) w) as [?|[[] w1]]; [done|].
  apply take_rows_run in Hrun as (X_test & HX & Hrun). cbn beta in Hrun.
  apply take_rows_run in Hrun as (y_test & Hy & Hrun). cbn beta in Hrun.
  rewrite run_bind in Hrun.
  destruct (run h (test_pipeline X_test y_test binary kw) w1)
    as [?|[res w2]] eqn:Htest; [done|].
  simpl in Hrun. injection Hrun as <- <- <-.
  exists res. split; [by exists X_test, y_test, w1, w2|].
  split; [|done].
  rewrite <- Hcols. apply df_append_summary_row.
Qed.

Lemma fold_loop_run folds df results w df' results' w' :
  columns df = metrics →
  run h (for_each folds (fold_step X y binary kw metrics) (df, results)) w
  = inr ((df', results'), w') →
  ∃ new,
    Forall2 (fold_result h X y binary kw) folds new ∧
    df' = MkDataFrame metrics (records df ++ map (summary_row metrics) new) ∧
    results' = results ++ new.
Proof.
  revert df results w.
  induction folds as [|fold folds IH]; intros df results w Hcols Hrun.
  - simpl in Hrun. injection Hrun as <- <- <-.
    exists []. split; [constructor|]. simpl. rewrite !app_nil_r.
    split; [|done]. destruct df. simpl in Hcols. by subst.
  - simpl in Hrun. rewrite run_bind in Hrun.
    destruct (run h (fold_step X y binary kw metrics fold (df, results)) w)
      as [?|[[df1 results1] w1]] eqn:Hstep; [done|].
    apply fold_step_run in Hstep as (res & Hres & -> & ->); [|done].
    apply IH in Hrun as (new & Hnew & -> & ->); [|done].
    exists (res :: new). split; [by constructor|].
    simpl. by rewrite <- !(assoc_L (++)).
Qed.

End FoldLoop.

(** C7.  A run of [cross_validate_pipeline] with fold count [N] that
    completes returns a summary table whose columns are the metric
    enumeration of the mode and which has [N] rows, and a result list of
    length [N]; the [i]-th result is what [test_pipeline] returned for the
    [i]-th fold of the splitter, the [i]-th row is made from the [i]-th
    result, and its cell for a metric is that metric's entry in the result,
    [None] where the result has no such key. *)
Theorem cross_validate_pipeline_table {sample W : Type}
  (METRICS_BINARY METRICS_MULTICLASS : list key) (N_FOLDS_DEFAULT : nat)
  (h : handler sample W) (X : list sample) (y : list label)
  (binary : option bool) (n_folds : option nat) (kw : kwargs)
  (w w' : W) (df : DataFrame) (results : list (gmap key value)) :
  split_contract h →
  run h (cross_validate_pipeline METRICS_BINARY METRICS_MULTICLASS
           N_FOLDS_DEFAULT X y binary n_folds kw) w
  = inr ((df, results), w') →
  let N := default N_FOLDS_DEFAULT n_folds in
  let metrics :=
    if default true binary then METRICS_BINARY else METRICS_MULTICLASS in
  columns df = metrics ∧
  length (records df) = N ∧
  length results = N ∧
  records df = map (summary_row metrics) results ∧
  (∀ i row res m,
     records df !! i = Some row → results !! i = Some res → m ∈ metrics →
     row !! m = Some (res !! m)) ∧
  ∃ folds w1,
    h _ (skf_split N X y) w = inr (folds, w1) ∧
    Forall2 (fold_result h X y (default true binary) kw) folds results.
Proof.
  intros Hsplit Hrun N metrics.
  unfold cross_validate_pipeline in Hrun. simpl in Hrun.
  fold N metrics in Hrun.
  destruct (h _ (skf_split N X y) w) as [?|[folds w1]] eqn:Hfolds; [done|].
  apply fold_loop_run in Hrun as (new & Hnew & -> & ->); [|done].
  simpl. apply Hsplit in Hfolds as Hlen.
  apply Forall2_length in Hnew as Hlen'.
  split; [done|]. split; [rewrite length_map; lia|]. split; [lia|].
  split; [done|]. split.
  - intros i row res m Hrow Hres Hm.
    rewrite list_lookup_fmap, Hres in Hrow. injection Hrow as <-.
    by apply summary_row_lookup.
  - by exists folds, w1.
Qed.

Lemma env_split : split_contract Env.env.
Proof.
  intros n X y w folds w' Hcall. simpl in Hcall.
  destruct (_ && _); [|done].
  injection Hcall as <- <-.
  unfold Env.deal_folds. by rewrite length_map, length_seq.
Qed.

Lemma cross_validate_pipeline_table_witness :
  let metrics_binary := [ACCURACY; COHEN_KAPPA; F1; ROC_AUC; AP; MCC] in
  let metrics_multiclass :=
    [ACCURACY; COHEN_KAPPA; F1_MICRO; F1_MACRO; ROC_AUC_MICRO;
     ROC_AUC_MACRO; RANK_ACCURACY] in
  ∃ df results,
    run Env.env
      (cross_validate_pipeline metrics_binary metrics_multiclass 10
         [(); (); (); (); ()] [0; 1; 0; 1; 1] (Some true) (Some 2)
         (Kwargs None None)) ()
    = inr ((df, results), ()) ∧
    columns df = metrics_binary ∧
    length (records df) = 2 ∧
    length results = 2.
Proof.
  intros metrics_binary metrics_multiclass.
  destruct (run Env.env
              (cross_validate_pipeline metrics_binary metrics_multiclass 10
                 [(); (); (); (); ()] [0; 1; 0; 1; 1] (Some true) (Some 2)
                 (Kwargs None None)) ())
    as [e|[[df results] []]] eqn:Hrun; [vm_compute in Hrun; discriminate|].
  exists df, results. split; [done|].
  destruct (cross_validate_pipeline_table metrics_binary metrics_multiclass
              10 Env.env _ _ _ _ _ _ _ _ _ env_split Hrun)
    as (Hcols & Hrows & Hresults & _).
  auto.
Defined.

(** * Further properties *)

(** ** [rank_n_accuracy]: edge cases and bounds *)


Lemma count_hits_le (y_true : list label) (rankings : list (list nat)) :
  count_hits y_true rankings ≤ length y_true.
Proof.
  revert rankings. induction y_true as [|v y IH]; intros [|r rs]; simpl;
    try (unfold count_hits; simpl; lia).
  rewrite count_hits_cons. specialize (IH rs). case_bool_decide; lia.
Qed.

Lemma count_hits_mono (y_true : list label) (rs rs' : list (list nat)) :
  Forall2 (⊆) rs rs' → count_hits y_true rs ≤ count_hits y_true rs'.
Proof.
  intros Hsub. revert y_true.
  induction Hsub as [|r r' rs rs' Hr _ IH]; intros [|v y];
    try (unfold count_hits; simpl; lia).
  rewrite !count_hits_cons. specialize (IH y).
  repeat case_bool_decide; try lia. set_solver.
Qed.

Lemma Qred_ratio_le (a b n : nat) :
  a ≤ b → (Qred (Z.of_nat a # Pos.of_nat n) <= Qred (Z.of_nat b # Pos.of_nat n))%Q.
Proof.
  intros Hab. rewrite !Qred_correct. unfold Qle. simpl. nia.
Qed.

Lemma Qred_ratio_unit (a n : nat) :
  0 < n → a ≤ n →
  (0 <= Qred (Z.of_nat a # Pos.of_nat n))%Q ∧
  (Qred (Z.of_nat a # Pos.of_nat n) <= 1)%Q.
Proof.
  intros Hn Han. rewrite !Qred_correct. unfold Qle. simpl. split; [lia|].
  rewrite <- (positive_nat_Z (Pos.of_nat n)), Nat2Pos.id by lia. lia.
Qed.

Section RankEdges.
Context {sample : Type}.

(** The counting loop fails at the first sample that has no ranking. *)
Lemma count_loop_short (y1 y2 : list label) (r1 r2 : list (list nat))
  (c : nat) :
  length y1 = length r1 → length r2 < length y2 →
  for_each (sample := sample) (seq (length y1) (length y2))
    (fun i count =>
       match (y1 ++ y2) !! i, (r1 ++ r2) !! i with
       | Some y_i, Some r =>
           Ret (if bool_decide (y_i ∈ r) then count + 1 else count)
       | _, _ => Raise IndexError
       end) c
  = Raise IndexError.
Proof.
  revert y1 r1 r2 c. induction y2 as [|v y2 IH]; intros y1 r1 r2 c H1 H2;
    [simpl in H2; lia|].
  simpl. rewrite list_lookup_middle by done.
  destruct r2 as [|r r2].
  - rewrite app_nil_r, (proj2 (lookup_ge_None r1 (length y1))) by lia. done.
  - rewrite list_lookup_middle by done. simpl.
    specialize (IH (y1 ++ [v]) (r1 ++ [r]) r2).
    rewrite !length_app in IH. simpl in IH.
    rewrite <- !(assoc_L (++)) in IH. simpl in IH.
    replace (length y1 + 1) with (S (length y1)) in IH by lia.
    apply IH; simpl in *; lia.
Qed.

Lemma rank_n_accuracy_short (y_true : list label) (probs : matrix float)
  (n : number) (k : Z) :
  top_count (shape1 probs) n = PyInt k →
  shape0 probs < length y_true →
  rank_n_accuracy (sample := sample) y_true probs n = Raise IndexError.
Proof.
  intros Hk Hrows. unfold rank_n_accuracy. rewrite Hk. simpl.
  pose proof (count_loop_short [] y_true []
                (map (slice_to k) (rankings_of probs)) 0) as Hloop.
  simpl in Hloop. rewrite Hloop; [done|done|].
  unfold rankings_of. by rewrite !length_map.
Qed.

End RankEdges.





(** X3.  Whatever [rank_n_accuracy] returns is a finite number between 0
    and 1. *)
Theorem rank_n_accuracy_range {sample : Type} (y_true : list label)
  (probs : matrix float) (n : number) (x : float) :
  rank_n_accuracy (sample := sample) y_true probs n = Ret x →
  unit_interval x.
Proof.
  intros Hret.
  destruct (top_count (shape1 probs) n) as [k|q] eqn:Hk;
    [|unfold rank_n_accuracy in Hret; by rewrite Hk in Hret].
  destruct (decide (shape0 probs < length y_true)) as [Hshort|Hrows].
  { by rewrite (rank_n_accuracy_short _ _ _ k) in Hret. }
  destruct y_true as [|v y_true].
  { unfold rank_n_accuracy in Hret. by rewrite Hk in Hret. }
  rewrite (rank_n_accuracy_returns _ _ _ k) in Hret;
    [|simpl; lia|lia|done].
  injection Hret as <-. eexists. split; [done|].
  apply Qred_ratio_unit; [simpl; lia|apply count_hits_le].
Qed.

Lemma rank_n_accuracy_range_witness :
  unit_interval (fin (1 # 2)).
Proof.
  apply (rank_n_accuracy_range (sample := unit) [1; 2]
           (Matrix 3 [[fin (1 # 10); fin (7 # 10); fin (2 # 10)];
                      [fin (5 # 10); fin (3 # 10); fin (2 # 10)]])
           (PyInt 1)).
  reflexivity.
Defined.

Lemma take_subseteq_mono {A} (l : list A) (n m : nat) :
  n ≤ m → take n l ⊆ take m l.
Proof.
  intros Hnm. replace (take n l) with (take n (take m l)).
  - apply subseteq_take.
  - rewrite take_take. f_equal. lia.
Qed.

Lemma slice_to_mono {A} (l : list A) (k k' : Z) :
  (0 ≤ k ≤ k')%Z → slice_to k l ⊆ slice_to k' l.
Proof.
  intros Hk. unfold slice_to.
  destruct (Z.leb_spec 0 k); [|lia]. destruct (Z.leb_spec 0 k'); [|lia].
  apply take_subseteq_mono. lia.
Qed.

Lemma py_round_floor (x : Q) :
  py_round x = Qfloor x ∨ py_round x = (Qfloor x + 1)%Z.
Proof.
  unfold py_round. destruct (_ ?= _)%Q; auto. destruct (Z.even _); auto.
Qed.

Lemma py_round_nonneg (x : Q) : (0 <= x)%Q → (0 ≤ py_round x)%Z.
Proof.
  intros Hx. apply Qfloor_resp_le in Hx. change (Qfloor 0) with 0%Z in Hx.
  destruct (py_round_floor x) as [-> | ->]; lia.
Qed.

Lemma py_round_le (x : Q) (c : Z) : (x <= inject_Z c)%Q → (py_round x ≤ c)%Z.
Proof.
  intros Hx. pose proof (Qfloor_resp_le _ _ Hx) as Hf.
  rewrite Qfloor_Z in Hf.
  destruct (decide (Qfloor x = c)) as [Heq|Hne].
  - unfold py_round. rewrite Heq.
    assert (x - inject_Z c < 1 # 2)%Q as Hlt.
    { apply Qle_lt_trans with 0%Q; [|reflexivity].
      rewrite <- (Qplus_opp_r (inject_Z c)).
      apply Qplus_le_l. exact Hx. }
    apply Qlt_alt in Hlt. unfold Qcompare in *. rewrite Hlt. lia.
  - destruct (py_round_floor x) as [-> | ->]; lia.
Qed.

(** X4.  The accuracy does not decrease when more of the ranking is
    admitted: for integers [1 ≤ k ≤ k'] the top-[k] accuracy is at most the
    top-[k'] accuracy. *)
Theorem rank_n_accuracy_monotone {sample : Type} (y_true : list label)
  (probs : matrix float) (k k' : Z) :
  0 < length y_true →
  length y_true ≤ shape0 probs →
  (1 ≤ k ≤ k')%Z →
  ∃ q q',
    rank_n_accuracy (sample := sample) y_true probs (PyInt k) = Ret (fin q) ∧
    rank_n_accuracy (sample := sample) y_true probs (PyInt k') = Ret (fin q') ∧
    (q <= q')%Q.
Proof.
  intros HS Hrows Hk.
  assert (∀ j, (1 ≤ j)%Z → top_count (shape1 probs) (PyInt j) = PyInt j)
    as Htop.
  { intros j Hj. simpl. destruct (Z.ltb_spec j 1); [lia|done]. }
  rewrite (rank_n_accuracy_returns _ _ _ k) by (done || apply Htop; lia).
  rewrite (rank_n_accuracy_returns _ _ _ k') by (done || apply Htop; lia).
  do 2 eexists. split; [done|]. split; [done|].
  apply Qred_ratio_le, count_hits_mono.
  induction (rankings_of probs) as [|r rs IH]; simpl; constructor; [|done].
  apply slice_to_mono. lia.
Qed.

Lemma rank_n_accuracy_monotone_witness :
  ∃ q q',
    rank_n_accuracy (sample := unit) [1; 2]
      (Matrix 3 [[fin (1 # 10); fin (7 # 10); fin (2 # 10)];
                 [fin (5 # 10); fin (3 # 10); fin (2 # 10)]]) (PyInt 1)
    = Ret (fin q) ∧
    rank_n_accuracy (sample := unit) [1; 2]
      (Matrix 3 [[fin (1 # 10); fin (7 # 10); fin (2 # 10)];
                 [fin (5 # 10); fin (3 # 10); fin (2 # 10)]]) (PyInt 3)
    = Ret (fin q') ∧
    (q <= q')%Q.
Proof.
  apply rank_n_accuracy_monotone; [simpl; lia|unfold shape0; simpl; lia|lia].
Defined.

(** X5.  An integer [n ≤ 0] admits no column at all: on a non-empty label
    vector and an [S × C] matrix the result is 0.0. *)
Theorem rank_n_accuracy_nonpositive {sample : Type} (y_true : list label)
  (probs : matrix float) (n : Z) :
  0 < length y_true →
  length y_true ≤ shape0 probs →
  well_shaped probs →
  (n ≤ 0)%Z →
  rank_n_accuracy (sample := sample) y_true probs (PyInt n) = Ret (fin 0).
Proof.
  intros HS Hrows Hwf Hn.
  rewrite (rank_n_accuracy_returns _ _ _ (Z.of_nat (shape1 probs) * n));
    [|done|done|].
  - rewrite count_hits_none; [done|].
    apply Forall_forall. intros r Hr.
    apply list_elem_of_fmap in Hr as (r' & -> & Hr').
    apply list_elem_of_lookup_1 in Hr' as [i Hi].
    apply rankings_of_lookup in Hi as [Hlen _]; [|done].
    by apply slice_to_nonpositive.
  - simpl. destruct (Z.ltb_spec n 1); [done|lia].
Qed.

Lemma rank_n_accuracy_nonpositive_witness :
  rank_n_accuracy (sample := unit) [0; 1]
    (Matrix 2 [[fin (9 # 10); fin (1 # 10)]; [fin (6 # 10); fin (4 # 10)]])
    (PyInt (-1))
  = Ret (fin 0).
Proof.
  apply rank_n_accuracy_nonpositive;
    [simpl; lia|unfold shape0; simpl; lia|repeat constructor|lia].
Defined.

(** X6.  A proportion [0 ≤ n < 1] always resolves to a count between 0 and
    the number of classes. *)
Theorem top_count_proportion (n_classes : nat) (q : Q) :
  (0 <= q)%Q → (q < 1)%Q →
  ∃ k, top_count n_classes (PyFloat q) = PyInt k ∧
       (0 ≤ k ≤ Z.of_nat n_classes)%Z.
Proof.
  intros H0 H1. unfold top_count.
  destruct (Qle_bool 1 q) eqn:Hq.
  { apply Qle_bool_iff in Hq. by apply Qlt_not_le in H1. }
  eexists. split; [done|]. split.
  - apply py_round_nonneg. apply Qmult_le_0_compat; [|done].
    rewrite <- (Zle_Qle 0). lia.
  - apply py_round_le.
    destruct q as [a b]. unfold Qle, Qlt in *. simpl in *. nia.
Qed.

Lemma top_count_proportion_witness :
  ∃ k, top_count 3 (PyFloat (33 # 100)) = PyInt k ∧ (0 ≤ k ≤ 3)%Z.
Proof.
  apply (top_count_proportion 3 (33 # 100)); [discriminate|reflexivity].
Defined.

(** ** [get_per_class_matrix]: shape and counts *)

Lemma sum_equals_int_count (y : list label) (c : label) :
  sum_list (equals_int y c) = length (filter (fun v => v = c) y).
Proof.
  induction y as [|v y IH]; simpl; [done|].
  rewrite filter_cons. destruct (Nat.eqb_spec v c) as [->|Hne].
  - rewrite decide_True by done. simpl. by rewrite IH.
  - rewrite decide_False by done. simpl. by rewrite IH.
Qed.

Lemma sum_comparisons_count (cl : list label) (v : label) :
  sum_list (map (fun c => Nat.b2n (v =? c)) cl)
  = length (filter (fun c => c = v) cl).
Proof.
  induction cl as [|c cl IH]; simpl; [done|].
  rewrite filter_cons. destruct (Nat.eqb_spec v c) as [->|Hne].
  - rewrite decide_True by done. simpl. by rewrite IH.
  - rewrite decide_False by done. simpl. by rewrite IH.
Qed.

Lemma comparisons_absent (cl : list label) (v : label) :
  v ∉ cl → map (fun c => Nat.b2n (v =? c)) cl = replicate (length cl) 0.
Proof.
  induction cl as [|c cl IH]; simpl; [done|]. intros Hv.
  rewrite IH by set_solver.
  destruct (Nat.eqb_spec v c) as [->|_]; [set_solver|done].
Qed.

(** X7.  [get_per_class_matrix] always returns a well-formed matrix with one
    row for each sample and one column for each class of [classes], or of
    the distinct labels when [classes] is omitted or empty. *)
Theorem get_per_class_matrix_shape (y : list label)
  (classes : option (list label)) :
  let m := get_per_class_matrix y classes in
  well_shaped m ∧
  shape0 m = length y ∧
  shape1 m = length (or_else classes (np_unique y)).
Proof.
  rewrite get_per_class_matrix_eq. simpl. split; [|split].
  - unfold well_shaped. simpl. apply Forall_forall. intros row Hrow.
    apply list_elem_of_fmap in Hrow as (v & -> & _). by rewrite length_map.
  - unfold shape0. simpl. by rewrite length_map.
  - done.
Qed.

(** X8.  The row of a sample holds a 1 for every occurrence of its label in
    the class sequence: it sums to the number of those occurrences, and it is
    all zero when the label is not among the classes. *)
Theorem get_per_class_matrix_rows (y : list label)
  (classes : option (list label)) (i : nat) (v : label) :
  y !! i = Some v →
  let cl := or_else classes (np_unique y) in
  ∃ row,
    mrows (get_per_class_matrix y classes) !! i = Some row ∧
    sum_list row = length (filter (fun c => c = v) cl) ∧
    (v ∉ cl → row = replicate (length cl) 0).
Proof.
  intros Hi cl. rewrite get_per_class_matrix_eq. simpl. fold cl.
  exists (map (fun c => Nat.b2n (v =? c)) cl).
  split; [by rewrite list_lookup_fmap, Hi|].
  split; [apply sum_comparisons_count|apply comparisons_absent].
Qed.

Lemma get_per_class_matrix_rows_witness :
  ∃ row,
    mrows (get_per_class_matrix [0; 3; 1] (Some [0; 1; 1])) !! 2 = Some row ∧
    sum_list row = 2.
Proof.
  destruct (get_per_class_matrix_rows [0; 3; 1] (Some [0; 1; 1]) 2 1 eq_refl)
    as (row & Hrow & Hsum & _).
  exists row. split; [exact Hrow|exact Hsum].
Defined.

(** X9.  The sum of a column is the number of samples of its class. *)
Theorem get_per_class_matrix_column_counts (y : list label)
  (classes : option (list label)) (j : nat) (c : label) :
  or_else classes (np_unique y) !! j = Some c →
  column_sum (get_per_class_matrix y classes) j
  = length (filter (fun v => v = c) y).
Proof.
  intros Hj. rewrite get_per_class_matrix_eq. simpl.
  rewrite (column_sum_comparisons _ _ _ _ c) by done.
  apply sum_equals_int_count.
Qed.

Lemma get_per_class_matrix_column_counts_witness :
  column_sum (get_per_class_matrix [2; 0; 2; 5] None) 1 = 2.
Proof.
  exact (get_per_class_matrix_column_counts [2; 0; 2; 5] None 1 2 eq_refl).
Defined.

(** ** [get_pr_roc_curves] and [get_metrics_binary]: calls and keys *)

Lemma run_bind_inv {sample W A B} (h : handler sample W) (p : prog sample A)
  (f : A → prog sample B) (w w' : W) (b : B) :
  run h (bind p f) w = inr (b, w') →
  ∃ a w1, run h p w = inr (a, w1) ∧ run h (f a) w1 = inr (b, w').
Proof.
  rewrite run_bind. destruct (run h p w) as [e|[a w1]]; [done|]. eauto.
Qed.

(** X10.  [get_pr_roc_curves] asks for exactly the two curves of its own
    arguments, with 1 as the positive label, and what it returns has the
    keys of the two curves and no other. *)
Theorem get_pr_roc_curves_calls {sample W} (h : handler sample W)
  (y_true : list label) (scores : list float) :
  all_calls (curve_call_ok (sample := sample) y_true scores)
    (get_pr_roc_curves y_true scores) ∧
  ∀ w r w',
    run h (get_pr_roc_curves y_true scores) w = inr (r, w') →
    dom r = curve_keys.
Proof.
  split.
  - unfold get_pr_roc_curves.
    apply all_calls_bind; [by apply all_calls_of_call|]. intros roc.
    apply all_calls_bind; [by apply all_calls_of_call|]. intros pr.
    constructor.
  - intros w r w' Hrun.
    apply get_pr_roc_curves_run in Hrun as (? & ? & ? & ? & ? & ? & ? & _ & _ & ->).
    unfold curve_keys. by rewrite dom_insert_L, dom_singleton_L.
Qed.

(** X11.  Every call [get_metrics_binary] makes is one of the eight metric
    primitives on its own arguments.  Average precision and ROC-AUC are
    asked on the indicator matrix over the classes 0 and 1, only when no
    probability is NaN, and ROC-AUC only when the number of distinct true
    labels is not one; the curves are asked only when requested and no
    probability is NaN, on column 1 of the probabilities. *)
Theorem get_metrics_binary_calls {sample : Type} (y_true y_pred : list label)
  (probs : matrix float) (include_curves : bool) :
  all_calls (binary_call_ok (sample := sample) y_true y_pred probs
               include_curves)
    (get_metrics_binary y_true y_pred probs include_curves).
Proof.
  unfold get_metrics_binary.
  apply all_calls_bind; [by apply all_calls_of_call|]. intros accuracy.
  apply all_calls_bind; [by apply all_calls_of_call|]. intros kappa.
  apply all_calls_bind; [by apply all_calls_of_call|]. intros f1.
  apply all_calls_bind; [by apply all_calls_of_call|]. intros mcc.
  destruct (any_isnan probs) eqn:Hnan; simpl; [constructor|].
  constructor; [done|]. intros ap. simpl.
  apply all_calls_bind.
  - destruct (Nat.eqb_spec (length (np_unique y_true)) 1) as [|Hne]; simpl;
      [constructor|].
    constructor; [done|]. intros auc. constructor.
  - intros results. destruct include_curves; [|constructor].
    unfold column. destruct (1 <? shape1 probs); [|constructor].
    destruct (col probs 1) as [scores|] eqn:Hcol; [|constructor].
    simpl. unfold get_pr_roc_curves. simpl.
    constructor; [done|]. intros roc. simpl.
    constructor; [done|]. intros pr. constructor.
Qed.

Lemma get_pr_roc_curves_calls_witness :
  dom ({[ ROC_CURVE := Curve ∅; PR_CURVE := Curve ∅ ]} : gmap key leaf)
  = curve_keys
  ∧ ∃ r, run Env.env (get_pr_roc_curves [0; 1] [fin (1 # 10); fin (9 # 10)]) tt
         = inr (r, tt) ∧ dom r = curve_keys.
Proof.
  split; [unfold curve_keys; by rewrite dom_insert_L, dom_singleton_L|].
  destruct (run Env.env
              (get_pr_roc_curves [0; 1] [fin (1 # 10); fin (9 # 10)]) tt)
    as [e|[r []]] eqn:Hrun; [vm_compute in Hrun; discriminate|].
  exists r. split; [done|].
  exact (proj2 (get_pr_roc_curves_calls Env.env _ _) _ _ _ Hrun).
Defined.

Ltac answer H :=
  match type of H with
  | context [match ?h ?R ?c ?w with _ => _ end] =>
      let E := fresh "Hcall" in
      destruct (h R c w) as [?|[? ?]] eqn:E; [discriminate H|]
  end.

(** X12.  The mapping [get_metrics_binary] returns always has the six keys
    of the scalar metrics; it has the two curve keys as well exactly when
    curves were requested and no probability is NaN. *)
Theorem get_metrics_binary_keys {sample W} (h : handler sample W)
  (y_true y_pred : list label) (probs : matrix float) (include_curves : bool)
  (w w' : W) (r : gmap key leaf) :
  run h (get_metrics_binary y_true y_pred probs include_curves) w
  = inr (r, w') →
  dom r = binary_keys ∪
          (if include_curves && negb (any_isnan probs) then curve_keys
           else ∅).
Proof.
  intros Hrun. unfold get_metrics_binary in Hrun. simpl in Hrun.
  do 4 answer Hrun.
  destruct (any_isnan probs); simpl in Hrun.
  { injection Hrun as <- <-. rewrite andb_false_r.
    unfold binary_keys. rewrite !dom_insert_L, dom_singleton_L. set_solver. }
  answer Hrun. rewrite andb_true_r.
  apply run_bind_inv in Hrun as (results & w5 & Hauc & Hrun).
  assert (dom results = binary_keys) as Hdom.
  { destruct (negb _); simpl in Hauc.
    - answer Hauc. injection Hauc as <- <-.
      unfold binary_keys. rewrite !dom_insert_L, dom_singleton_L. set_solver.
    - injection Hauc as <- <-.
      unfold binary_keys. rewrite !dom_insert_L, dom_singleton_L. set_solver. }
  destruct include_curves.
  - apply run_bind_inv in Hrun as (scores & w6 & _ & Hrun).
    simpl in Hrun. do 2 answer Hrun. injection Hrun as <- <-.
    rewrite dom_union_L, Hdom, !dom_insert_L, dom_empty_L.
    unfold curve_keys. set_solver.
  - simpl in Hrun. injection Hrun as <- <-. rewrite Hdom. set_solver.
Qed.

Lemma get_metrics_binary_keys_witness :
  ∃ r, run Env.env
         (get_metrics_binary [0; 1; 0] [0; 1; 1]
            (Matrix 2 [[fin (9 # 10); fin (1 # 10)];
                       [fin (2 # 10); fin (8 # 10)];
                       [fin (7 # 10); fin (3 # 10)]]) true) tt
       = inr (r, tt) ∧
       dom r = binary_keys ∪ curve_keys.
Proof.
  destruct (run Env.env
              (get_metrics_binary [0; 1; 0] [0; 1; 1]
                 (Matrix 2 [[fin (9 # 10); fin (1 # 10)];
                            [fin (2 # 10); fin (8 # 10)];
                            [fin (7 # 10); fin (3 # 10)]]) true) tt)
    as [e|[r []]] eqn:Hrun; [vm_compute in Hrun; discriminate|].
  exists r. split; [done|].
  exact (get_metrics_binary_keys Env.env _ _ _ _ _ _ _ Hrun).
Defined.

(** X13.  When curves are requested for a NaN-free probability matrix with
    fewer than two columns, [get_metrics_binary] never returns: reading
    column 1 fails. *)
Theorem get_metrics_binary_narrow_matrix {sample W} (h : handler sample W)
  (y_true y_pred : list label) (probs : matrix float) (w : W) :
  shape1 probs < 2 →
  (∀ row, row ∈ mrows probs → nan ∉ row) →
  ∃ e, run h (get_metrics_binary y_true y_pred probs true) w = inl e.
Proof.
  intros Hcols Hnan%any_isnan_false.
  destruct (run h (get_metrics_binary y_true y_pred probs true) w)
    as [e|[r w']] eqn:Hrun; [eauto|exfalso].
  unfold get_metrics_binary in Hrun. rewrite Hnan in Hrun. simpl in Hrun.
  do 5 answer Hrun.
  apply run_bind_inv in Hrun as (results & w5 & _ & Hrun).
  apply run_bind_inv in Hrun as (scores & w6 & Hcol & _).
  unfold column in Hcol.
  destruct (Nat.ltb_spec 1 (shape1 probs)); [lia|done].
Qed.

Lemma get_metrics_binary_narrow_matrix_witness :
  ∃ e, run Env.env
         (get_metrics_binary [0; 1] [0; 1]
            (Matrix 1 [[fin (1 # 10)]; [fin (8 # 10)]]) true) tt
       = inl e.
Proof.
  apply get_metrics_binary_narrow_matrix; [simpl; lia|].
  intros row Hrow Hnan.
  repeat (apply elem_of_cons in Hrow as [->|Hrow]; [set_solver|]).
  set_solver.
Defined.

(** X14.  With no NaN probability, a number of distinct true labels other
    than one and no curves requested, [get_metrics_binary] returns the
    answers of the six primitives under their keys and nothing else. *)
Theorem get_metrics_binary_scores {sample W} (h : handler sample W)
  (y_true y_pred : list label) (probs : matrix float)
  (w w' : W) (r : gmap key leaf) :
  (∀ row, row ∈ mrows probs → nan ∉ row) →
  length (np_unique y_true) ≠ 1 →
  run h (get_metrics_binary y_true y_pred probs false) w = inr (r, w') →
  ∃ accuracy kappa f1 mcc ap auc w1 w2 w3 w4 w5,
    h _ (accuracy_score y_true y_pred) w = inr (accuracy, w1) ∧
    h _ (cohen_kappa_score y_true y_pred) w1 = inr (kappa, w2) ∧
    h _ (f1_score y_true y_pred None) w2 = inr (f1, w3) ∧
    h _ (matthews_corrcoef y_true y_pred) w3 = inr (mcc, w4) ∧
    h _ (average_precision_score
           (get_per_class_matrix y_true (Some [0; 1])) probs) w4
    = inr (ap, w5) ∧
    h _ (roc_auc_score
           (get_per_class_matrix y_true (Some [0; 1])) probs None) w5
    = inr (auc, w') ∧
    r = {[ ACCURACY := Score accuracy;
           COHEN_KAPPA := Score kappa;
           F1 := Score f1;
           MCC := Score mcc;
           ROC_AUC := Score auc;
           AP := Score ap ]}.
Proof.
  intros Hnan%any_isnan_false Hclasses Hrun.
  unfold get_metrics_binary in Hrun. rewrite Hnan in Hrun.
  destruct (Nat.eqb_spec (length (np_unique y_true)) 1) as [|_]; [done|].
  simpl in Hrun. do 6 answer Hrun.
  injection Hrun as <- <-.
  do 11 eexists. repeat (split; [first [eassumption|reflexivity]|]).
  apply map_eq. intros k. destruct k; reflexivity.
Qed.

Lemma get_metrics_binary_scores_witness :
  ∃ r, run Env.env
         (get_metrics_binary [0; 1; 0; 1] [0; 1; 0; 0]
            (Matrix 2 [[fin (9 # 10); fin (1 # 10)];
                       [fin (2 # 10); fin (8 # 10)];
                       [fin (7 # 10); fin (3 # 10)];
                       [fin (6 # 10); fin (4 # 10)]]) false) tt
       = inr (r, tt) ∧
       r !! ACCURACY = Some (Score (fin (3 # 4))) ∧
       r !! ROC_CURVE = None.
Proof.
  destruct (run Env.env
              (get_metrics_binary [0; 1; 0; 1] [0; 1; 0; 0]
                 (Matrix 2 [[fin (9 # 10); fin (1 # 10)];
                            [fin (2 # 10); fin (8 # 10)];
                            [fin (7 # 10); fin (3 # 10)];
                            [fin (6 # 10); fin (4 # 10)]]) false) tt)
    as [e|[r []]] eqn:Hrun; [vm_compute in Hrun; discriminate|].
  exists r. split; [done|].
  edestruct (get_metrics_binary_scores Env.env) as
    (a & k & f & m & ap & auc & w1 & w2 & w3 & w4 & w5
     & H1 & _ & _ & _ & _ & _ & ->); [| |exact Hrun|].
  - intros row Hrow Hnan.
    repeat (apply elem_of_cons in Hrow as [->|Hrow]; [set_solver|]).
    set_solver.
  - simpl. lia.
  - injection H1 as <- <-. split; reflexivity.
Defined.

(** ** [get_metrics_multiclass]: what a run returns *)

Section MulticlassRuns.
Context {sample W : Type} (h : handler sample W).

Lemma run_call_inv {R B} (c : extcall sample R) (f : R → prog sample B)
  (w w' : W) (b : B) :
  run h (bind (call c) f) w = inr (b, w') →
  ∃ a w1, h _ c w = inr (a, w1) ∧ run h (f a) w1 = inr (b, w').
Proof.
  simpl. destruct (h R c w) as [e|[a w1]]; [done|]. eauto.
Qed.

(** A program that makes no call returns without touching the
    environment. *)
Lemma pure_run_inv {A} (p : prog sample A) (w w' : W) (a : A) :
  all_calls (fun _ _ => False) p →
  run h p w = inr (a, w') → p = Ret a ∧ w' = w.
Proof.
  intros Hpure Hrun. destruct Hpure as [a'|e|R c k []]; [|done].
  simpl in Hrun. by injection Hrun as <- <-.
Qed.

Lemma set_class_wise_lookup (cls : nat) (class_res : gmap key leaf)
  (results : gmap key value) (per_class : gmap nat (gmap key leaf)) :
  results !! class_wise = Some (ClassWise per_class) →
  set_class_wise cls class_res results !! class_wise
  = Some (ClassWise (<[cls := class_res]> per_class)) ∧
  ∀ k, k ≠ class_wise →
       set_class_wise cls class_res results !! k = results !! k.
Proof.
  intros Hcw. unfold set_class_wise. split.
  - by rewrite lookup_alter_eq, Hcw.
  - intros k Hk. by rewrite lookup_alter_ne.
Qed.

(** The loop over the classes leaves the flat entries alone and stores one
    result for each class it visits. *)
Lemma class_wise_loop_run (y_true_bin y_pred_bin : matrix nat)
  (probs : matrix float) (include_curves : bool) (classes : list nat)
  (results r : gmap key value) (per_class : gmap nat (gmap key leaf))
  (w w' : W) :
  results !! class_wise = Some (ClassWise per_class) →
  run h
    (for_each classes
       (fun cls results =>
          probs_cls ← column probs cls;
          class_pred_probs ←
            column_stack2 (map one_minus probs_cls) probs_cls;
          y_true_cls ← column y_true_bin cls;
          y_pred_cls ← column y_pred_bin cls;
          class_res ← get_metrics_binary y_true_cls y_pred_cls
                        class_pred_probs include_curves;
          Ret (set_class_wise cls class_res results))
       results) w
  = inr (r, w') →
  (∀ k, k ≠ class_wise → r !! k = results !! k) ∧
  ∃ per_class',
    r !! class_wise = Some (ClassWise per_class') ∧
    dom per_class' = dom per_class ∪ list_to_set classes.
Proof.
  revert results per_class w.
  induction classes as [|cls classes IH]; intros results per_class w Hcw Hrun.
  - simpl in Hrun. injection Hrun as <- <-. split; [done|].
    exists per_class. split; [done|]. set_solver.
  - cbn [for_each] in Hrun.
    apply run_bind_inv in Hrun as (results1 & w1 & Hstep & Hrun).
    apply run_bind_inv in Hstep as (probs_cls & ? & _ & Hstep).
    apply run_bind_inv in Hstep as (class_pred_probs & ? & _ & Hstep).
    apply run_bind_inv in Hstep as (y_true_cls & ? & _ & Hstep).
    apply run_bind_inv in Hstep as (y_pred_cls & ? & _ & Hstep).
    apply run_bind_inv in Hstep as (class_res & ? & _ & Hstep).
    simpl in Hstep. injection Hstep as <- <-.
    destruct (set_class_wise_lookup cls class_res results per_class Hcw)
      as [Hcw1 Hother].
    apply (IH _ _ _ Hcw1) in Hrun as (Hflat & per_class' & Hcw' & Hdom).
    split.
    + intros k Hk. by rewrite Hflat, Hother.
    + exists per_class'. split; [done|].
      rewrite Hdom, dom_insert_L. set_solver.
Qed.

(** The course of a run of [get_metrics_multiclass] that returns. *)
Lemma get_metrics_multiclass_run (y_true y_pred : list label)
  (probs : matrix float) (include_per_class include_curves : bool)
  (w w' : W) (r : gmap key value) :
  run h (get_metrics_multiclass y_true y_pred probs include_per_class
           include_curves) w
  = inr (r, w') →
  ∃ accuracy kappa f1_micro f1_macro rank auc_micro auc_macro,
    rank_n_accuracy (sample := sample) y_true probs (PyFloat (33 # 100))
    = Ret rank ∧
    (length (np_unique y_true) = 1 ∨ any_isnan probs = true →
     auc_micro = nan ∧ auc_macro = nan) ∧
    (∀ k, k ≠ class_wise →
       r !! k
       = ({[ ACCURACY := Leaf (Score accuracy);
             COHEN_KAPPA := Leaf (Score kappa);
             F1_MICRO := Leaf (Score f1_micro);
             F1_MACRO := Leaf (Score f1_macro);
             ROC_AUC_MICRO := Leaf (Score auc_micro);
             ROC_AUC_MACRO := Leaf (Score auc_macro);
             RANK_ACCURACY := Leaf (Score rank) ]} : gmap key value) !! k) ∧
    (if include_per_class || include_curves then
       ∃ per_class,
         r !! class_wise = Some (ClassWise per_class) ∧
         dom per_class = list_to_set (seq 0 (shape1 probs))
     else r !! class_wise = None).
Proof.
  intros Hrun. unfold get_metrics_multiclass in Hrun.
  apply run_call_inv in Hrun as (accuracy & ? & _ & Hrun).
  apply run_call_inv in Hrun as (kappa & ? & _ & Hrun).
  apply run_call_inv in Hrun as (f1_micro & ? & _ & Hrun).
  apply run_call_inv in Hrun as (f1_macro & ? & _ & Hrun).
  cbn zeta in Hrun.
  apply run_bind_inv in Hrun as (rank & ? & Hrank & Hrun).
  apply pure_run_inv in Hrank as [Hrank ->];
    [|apply all_calls_rank_n_accuracy].
  apply run_bind_inv in Hrun as (flat & w5 & Hauc & Hrun).
  assert (∃ auc_micro auc_macro,
            (length (np_unique y_true) = 1 ∨ any_isnan probs = true →
             auc_micro = nan ∧ auc_macro = nan) ∧
            flat = {[ ACCURACY := Leaf (Score accuracy);
                      COHEN_KAPPA := Leaf (Score kappa);
                      F1_MICRO := Leaf (Score f1_micro);
                      F1_MACRO := Leaf (Score f1_macro);
                      ROC_AUC_MICRO := Leaf (Score auc_micro);
                      ROC_AUC_MACRO := Leaf (Score auc_macro);
                      RANK_ACCURACY := Leaf (Score rank) ]})
    as (auc_micro & auc_macro & Hnan & ->).
  { destruct (Nat.eqb_spec (length (np_unique y_true)) 1) as [Hone|Hmore];
      destruct (any_isnan probs) eqn:Hany; simpl in Hauc;
      try (injection Hauc as <- <-; exists nan, nan; split; [done|];
           apply map_eq; intros k; destruct k; reflexivity).
    apply run_bind_inv in Hauc as (filtered & ? & _ & Hauc).
    apply run_call_inv in Hauc as (auc_micro & ? & _ & Hauc).
    apply run_call_inv in Hauc as (auc_macro & ? & _ & Hauc).
    simpl in Hauc. injection Hauc as <- <-.
    exists auc_micro, auc_macro. split; [intros [|]; done|].
    apply map_eq. intros k. destruct k; reflexivity. }
  exists accuracy, kappa, f1_micro, f1_macro, rank, auc_micro, auc_macro.
  split; [done|]. split; [done|].
  destruct (include_per_class || include_curves).
  - cbn zeta in Hrun.
    eapply class_wise_loop_run in Hrun as (Hflat & per_class & Hcw & Hdom);
      [|by rewrite lookup_insert_eq].
    split.
    + intros k Hk. rewrite Hflat by done. by rewrite lookup_insert_ne.
    + exists per_class. split; [done|]. rewrite Hdom, dom_empty_L. set_solver.
  - simpl in Hrun. injection Hrun as <- <-. split; [done|reflexivity].
Qed.

End MulticlassRuns.

(** X15.  When all true labels are of one class, or a probability is NaN,
    the mapping [get_metrics_multiclass] returns has NaN for both ROC-AUC
    averages. *)
Theorem get_metrics_multiclass_undefined_auc {sample W}
  (h : handler sample W) (y_true y_pred : list label) (probs : matrix float)
  (include_per_class include_curves : bool) (w w' : W)
  (r : gmap key value) :
  length (np_unique y_true) = 1 ∨ (∃ row, row ∈ mrows probs ∧ nan ∈ row) →
  run h (get_metrics_multiclass y_true y_pred probs include_per_class
           include_curves) w
  = inr (r, w') →
  r !! ROC_AUC_MICRO = Some (Leaf (Score nan)) ∧
  r !! ROC_AUC_MACRO = Some (Leaf (Score nan)).
Proof.
  intros Hcond Hrun.
  apply get_metrics_multiclass_run in Hrun
    as (accuracy & kappa & f1_micro & f1_macro & rank & auc_micro & auc_macro
        & _ & Hnan & Hflat & _).
  destruct Hnan as [-> ->].
  { destruct Hcond as [|Hcond]; [by left|right]. by apply any_isnan_true. }
  split; rewrite Hflat by done; reflexivity.
Qed.

Lemma get_metrics_multiclass_undefined_auc_witness :
  ∃ r, run Env.env
         (get_metrics_multiclass [1; 1; 1] [1; 0; 1]
            (Matrix 3 [[fin (1 # 10); fin (7 # 10); fin (2 # 10)];
                       [fin (5 # 10); fin (3 # 10); fin (2 # 10)];
                       [fin (2 # 10); fin (6 # 10); fin (2 # 10)]])
            false false) tt
       = inr (r, tt) ∧
       r !! ROC_AUC_MICRO = Some (Leaf (Score nan)) ∧
       r !! ROC_AUC_MACRO = Some (Leaf (Score nan)).
Proof.
  destruct (run Env.env
              (get_metrics_multiclass [1; 1; 1] [1; 0; 1]
                 (Matrix 3 [[fin (1 # 10); fin (7 # 10); fin (2 # 10)];
                            [fin (5 # 10); fin (3 # 10); fin (2 # 10)];
                            [fin (2 # 10); fin (6 # 10); fin (2 # 10)]])
                 false false) tt)
    as [e|[r []]] eqn:Hrun; [vm_compute in Hrun; discriminate|].
  exists r. split; [done|].
  eapply (get_metrics_multiclass_undefined_auc Env.env); [|exact Hrun].
  left. reflexivity.
Defined.

(** X16.  The mapping [get_metrics_multiclass] returns has the key
    ['class_wise'] exactly when per-class results or curves were requested,
    and then it holds one result for each column index of the probability
    matrix and for nothing else. *)
Theorem get_metrics_multiclass_class_wise {sample W} (h : handler sample W)
  (y_true y_pred : list label) (probs : matrix float)
  (include_per_class include_curves : bool) (w w' : W)
  (r : gmap key value) :
  run h (get_metrics_multiclass y_true y_pred probs include_per_class
           include_curves) w
  = inr (r, w') →
  if include_per_class || include_curves then
    ∃ per_class,
      r !! class_wise = Some (ClassWise per_class) ∧
      ∀ cls, is_Some (per_class !! cls) ↔ cls < shape1 probs
  else r !! class_wise = None.
Proof.
  intros Hrun.
  apply get_metrics_multiclass_run in Hrun
    as (? & ? & ? & ? & ? & ? & ? & _ & _ & _ & Hcw).
  destruct (include_per_class || include_curves); [|done].
  destruct Hcw as (per_class & Hcw & Hdom).
  exists per_class. split; [done|]. intros cls.
  rewrite <- elem_of_dom, Hdom, elem_of_list_to_set, elem_of_seq. lia.
Qed.

Lemma get_metrics_multiclass_class_wise_witness :
  ∃ r per_class,
    run Env.env
      (get_metrics_multiclass [0; 2] [0; 0]
         (Matrix 3 [[fin (6 # 10); fin (3 # 10); fin (1 # 10)];
                    [fin (2 # 10); fin (3 # 10); fin (5 # 10)]])
         true false) tt
    = inr (r, tt) ∧
    r !! class_wise = Some (ClassWise per_class) ∧
    ∀ cls, is_Some (per_class !! cls) ↔ cls < 3.
Proof.
  destruct (run Env.env
              (get_metrics_multiclass [0; 2] [0; 0]
                 (Matrix 3 [[fin (6 # 10); fin (3 # 10); fin (1 # 10)];
                            [fin (2 # 10); fin (3 # 10); fin (5 # 10)]])
                 true false) tt)
    as [e|[r []]] eqn:Hrun; [vm_compute in Hrun; discriminate|].
  destruct (get_metrics_multiclass_class_wise Env.env _ _ _ _ _ _ _ _ Hrun)
    as (per_class & Hcw & Hdom).
  by exists r, per_class.
Defined.

(** X17.  The flat part of the mapping [get_metrics_multiclass] returns has
    exactly the seven scalar keys, and under [RANK_ACCURACY] the value of
    [rank_n_accuracy] for the proportion 0.33. *)
Theorem get_metrics_multiclass_flat {sample W} (h : handler sample W)
  (y_true y_pred : list label) (probs : matrix float)
  (include_per_class include_curves : bool) (w w' : W)
  (r : gmap key value) :
  run h (get_metrics_multiclass y_true y_pred probs include_per_class
           include_curves) w
  = inr (r, w') →
  (∀ k, k ≠ class_wise →
     (is_Some (r !! k) ↔
      k ∈ [ACCURACY; COHEN_KAPPA; F1_MICRO; F1_MACRO; ROC_AUC_MICRO;
           ROC_AUC_MACRO; RANK_ACCURACY])) ∧
  ∃ rank,
    rank_n_accuracy (sample := sample) y_true probs (PyFloat (33 # 100))
    = Ret rank ∧
    r !! RANK_ACCURACY = Some (Leaf (Score rank)).
Proof.
  intros Hrun.
  apply get_metrics_multiclass_run in Hrun
    as (accuracy & kappa & f1_micro & f1_macro & rank & auc_micro & auc_macro
        & Hrank & _ & Hflat & _).
  split.
  - intros k Hk. rewrite Hflat by done.
    destruct k; try done;
      (split; [intros _; set_solver|intros _; eexists; reflexivity])
      || (split; [intros [? Hsome]; discriminate Hsome|intros Hin; set_solver]).
  - exists rank. split; [done|]. by rewrite Hflat.
Qed.

Lemma get_metrics_multiclass_flat_witness :
  ∃ r rank,
    run Env.env
      (get_metrics_multiclass [0; 2] [0; 0]
         (Matrix 3 [[fin (6 # 10); fin (3 # 10); fin (1 # 10)];
                    [fin (2 # 10); fin (3 # 10); fin (5 # 10)]])
         false true) tt
    = inr (r, tt) ∧
    r !! RANK_ACCURACY = Some (Leaf (Score rank)) ∧
    r !! ROC_CURVE = None.
Proof.
  destruct (run Env.env
              (get_metrics_multiclass [0; 2] [0; 0]
                 (Matrix 3 [[fin (6 # 10); fin (3 # 10); fin (1 # 10)];
                            [fin (2 # 10); fin (3 # 10); fin (5 # 10)]])
                 false true) tt)
    as [e|[r []]] eqn:Hrun; [vm_compute in Hrun; discriminate|].
  destruct (get_metrics_multiclass_flat Env.env _ _ _ _ _ _ _ _ Hrun)
    as (Hkeys & rank & _ & Hrank).
  exists r, rank. split; [done|]. split; [done|].
  destruct (r !! ROC_CURVE) eqn:Hroc; [|done].
  assert (is_Some (r !! ROC_CURVE)) as Hsome by (by eexists).
  apply Hkeys in Hsome; [|done]. set_solver.
Defined.

(** X18.  On an empty label vector [get_metrics_multiclass] never returns;
    once the four label metrics have answered it fails with the division by
    zero of [rank_n_accuracy]. *)
Theorem get_metrics_multiclass_empty {sample W} (h : handler sample W)
  (y_pred : list label) (probs : matrix float)
  (include_per_class include_curves : bool) (w : W) :
  (∃ e, run h (get_metrics_multiclass [] y_pred probs include_per_class
                 include_curves) w = inl e) ∧
  ((∀ R (c : extcall sample R) w0,
      sklearn_call c = true → ∃ a w1, h R c w0 = inr (a, w1)) →
   run h (get_metrics_multiclass [] y_pred probs include_per_class
            include_curves) w = inl ZeroDivisionError).
Proof.
  assert (∀ k : float → prog sample (gmap key value),
            bind (rank_n_accuracy [] probs (PyFloat (33 # 100))) k
            = Raise ZeroDivisionError) as Hrank by done.
  split.
  - destruct (run h _ w) as [e|[r w']] eqn:Hrun; [eauto|exfalso].
    apply get_metrics_multiclass_run in Hrun
      as (? & ? & ? & ? & rank & ? & ? & Hret & _).
    discriminate Hret.
  - intros Htotal. unfold get_metrics_multiclass. simpl.
    destruct (Htotal _ (accuracy_score [] y_pred) w eq_refl)
      as (? & w1 & ->).
    destruct (Htotal _ (cohen_kappa_score [] y_pred) w1 eq_refl)
      as (? & w2 & ->).
    destruct (Htotal _ (f1_score [] y_pred (Some micro)) w2 eq_refl)
      as (? & w3 & ->).
    destruct (Htotal _ (f1_score [] y_pred (Some macro)) w3 eq_refl)
      as (? & w4 & ->).
    done.
Qed.

Lemma get_metrics_multiclass_empty_witness :
  run Env.env
    (get_metrics_multiclass [] [] (Matrix 3 []) false false) tt
  = inl ZeroDivisionError.
Proof.
  apply (proj2 (get_metrics_multiclass_empty Env.env [] (Matrix 3 [])
                  false false tt)).
  intros R c w0 Hc. destruct c; try discriminate Hc; simpl; eauto.
Defined.

(** X19.  With a true label that is no column index of the probability
    matrix, a number of distinct labels other than one and no NaN,
    [get_metrics_multiclass] never returns: selecting the columns of the
    present classes fails. *)
Theorem get_metrics_multiclass_label_out_of_range {sample W}
  (h : handler sample W) (y_true y_pred : list label) (probs : matrix float)
  (include_per_class include_curves : bool) (w : W) (v : label) :
  v ∈ y_true → shape1 probs ≤ v →
  length (np_unique y_true) ≠ 1 →
  (∀ row, row ∈ mrows probs → nan ∉ row) →
  ∃ e, run h (get_metrics_multiclass y_true y_pred probs include_per_class
                include_curves) w = inl e.
Proof.
  intros Hv Hrange Hclasses Hnan%any_isnan_false.
  destruct (run h _ w) as [e|[r w']] eqn:Hrun; [eauto|exfalso].
  unfold get_metrics_multiclass in Hrun.
  apply run_call_inv in Hrun as (accuracy & ? & _ & Hrun).
  apply run_call_inv in Hrun as (kappa & ? & _ & Hrun).
  apply run_call_inv in Hrun as (f1_micro & ? & _ & Hrun).
  apply run_call_inv in Hrun as (f1_macro & ? & _ & Hrun).
  cbn zeta in Hrun.
  apply run_bind_inv in Hrun as (rank & ? & _ & Hrun).
  apply run_bind_inv in Hrun as (flat & w5 & Hauc & _).
  rewrite Hnan in Hauc.
  destruct (Nat.eqb_spec (length (np_unique y_true)) 1) as [|_]; [done|].
  simpl in Hauc.
  apply run_bind_inv in Hauc as (filtered & ? & Hcols & _).
  unfold take_columns in Hcols.
  destruct (forallb _ (np_unique y_true)) eqn:Hall; [|done].
  rewrite forallb_forall in Hall.
  specialize (Hall v). rewrite Nat.ltb_lt in Hall.
  assert (v < shape1 probs); [|lia].
  apply Hall, list_elem_of_In, elem_of_np_unique, Hv.
Qed.

Lemma get_metrics_multiclass_label_out_of_range_witness :
  ∃ e, run Env.env
         (get_metrics_multiclass [0; 5] [0; 0]
            (Matrix 2 [[fin (6 # 10); fin (4 # 10)];
                       [fin (2 # 10); fin (8 # 10)]])
            false false) tt
       = inl e.
Proof.
  apply (get_metrics_multiclass_label_out_of_range Env.env _ _ _ _ _ _ 5).
  - set_solver.
  - simpl. lia.
  - simpl. lia.
  - intros row Hrow Hnan.
    repeat (apply elem_of_cons in Hrow as [->|Hrow]; [set_solver|]).
    set_solver.
Defined.

(** ** [test_pipeline] and [cross_validate_pipeline]: calls *)

Section PipelineCalls.
Context {sample : Type}.
Implicit Types P : ∀ R, extcall sample R → Prop.



Lemma all_calls_take_columns {A} P (m : matrix A) idx :
  all_calls P (take_columns (sample := sample) m idx).
Proof.
  unfold take_columns. destruct (forallb _ idx); [|constructor].
  destruct (mapM _ (mrows m)); constructor.
Qed.

Lemma all_calls_stack_distances P d :
  all_calls P (stack_distances (sample := sample) d).
Proof.
  destruct d; simpl; [apply all_calls_column_stack2|constructor].
Qed.

Ltac metric_call HP :=
  apply all_calls_bind; [apply all_calls_of_call, HP; reflexivity|]; intros ?.

(** The metric functions call scikit-learn and nothing else. *)
Lemma metrics_only_binary P y_true y_pred probs include_curves :
  (∀ R (c : extcall sample R), sklearn_call c = true → P R c) →
  all_calls P (get_metrics_binary y_true y_pred probs include_curves).
Proof.
  intros HP. unfold get_metrics_binary. do 4 metric_call HP.
  destruct (negb (any_isnan probs)); [|constructor]. metric_call HP.
  apply all_calls_bind.
  - destruct (negb _); [|constructor]. metric_call HP. constructor.
  - intros results. destruct include_curves; [|constructor].
    apply all_calls_bind; [apply all_calls_column|]. intros scores.
    apply all_calls_bind; [|constructor].
    unfold get_pr_roc_curves. do 2 metric_call HP. constructor.
Qed.

Lemma metrics_only_multiclass P y_true y_pred probs include_per_class
  include_curves :
  (∀ R (c : extcall sample R), sklearn_call c = true → P R c) →
  all_calls P (get_metrics_multiclass y_true y_pred probs include_per_class
                 include_curves).
Proof.
  intros HP. unfold get_metrics_multiclass. do 4 metric_call HP.
  apply all_calls_bind; [apply all_calls_rank_n_accuracy|]. intros rank.
  apply all_calls_bind.
  - destruct (negb _); [|constructor].
    apply all_calls_bind; [apply all_calls_take_columns|]. intros filtered.
    do 2 metric_call HP. constructor.
  - intros results. destruct (_ || _); [|constructor].
    apply all_calls_for_each. intros cls res.
    apply all_calls_bind; [apply all_calls_column|]. intros probs_cls.
    apply all_calls_bind; [apply all_calls_column_stack2|]. intros ?.
    apply all_calls_bind; [apply all_calls_column|]. intros y_true_cls.
    apply all_calls_bind; [apply all_calls_column|]. intros y_pred_cls.
    apply all_calls_bind; [|constructor].
    by apply metrics_only_binary.
Qed.

Lemma metrics_only_apply P binary y y_pred y_pred_probs kw :
  (∀ R (c : extcall sample R), sklearn_call c = true → P R c) →
  all_calls P (apply_get_metrics binary y y_pred y_pred_probs kw).
Proof.
  intros HP. unfold apply_get_metrics. destruct binary.
  - destruct (kw_include_per_class kw); [constructor|].
    destruct y_pred_probs.
    + do 4 metric_call HP. constructor.
    + apply all_calls_bind; [by apply metrics_only_binary|]. constructor.
  - destruct y_pred_probs.
    + do 4 metric_call HP. constructor.
    + by apply metrics_only_multiclass.
Qed.

(** [test_pipeline] asks the pipeline about [X] only. *)
Lemma test_pipeline_asks (X : list sample) y binary kw :
  all_calls (test_call_ok X) (test_pipeline X y binary kw).
Proof.
  unfold test_pipeline.
  apply all_calls_bind; [by apply all_calls_of_call|]. intros y_pred.
  apply all_calls_bind; [by apply all_calls_of_call|]. intros method.
  apply all_calls_bind.
  - destruct (bool_decide _); [destruct binary|].
    + apply all_calls_bind; [by apply all_calls_of_call|]. intros d.
      apply all_calls_bind; [apply all_calls_stack_distances|]. constructor.
    + by apply all_calls_of_call.
    + apply all_calls_bind; [by apply all_calls_of_call|]. constructor.
  - intros y_pred_probs. apply metrics_only_apply.
    intros R c Hc. by destruct c.
Qed.

End PipelineCalls.

(** X20.  [test_pipeline] first asks the pipeline for its predictions on
    [X] and then for the name of its last step.  For the names ['sgd'] and
    ['pa'] it goes on to ask for decision scores and never for
    probabilities; for every other name it asks for probabilities and never
    for decision scores.  Throughout it asks the pipeline about [X] only, and
    never fits or splits. *)
Theorem test_pipeline_dispatch {sample : Type} (X : list sample)
  (y : list label) (binary : bool) (kw : kwargs) :
  all_calls (test_call_ok X) (test_pipeline X y binary kw) ∧
  ∃ K,
    test_pipeline X y binary kw
    = Call (pipeline_predict X)
        (fun y_pred => Call pipeline_last_step (K y_pred)) ∧
    ∀ y_pred method,
      (method ∈ ["sgd"; "pa"] →
       (∃ K', K y_pred method = Call (pipeline_decision_function X) K') ∧
       all_calls (fun R c => asks_probabilities c = false)
         (K y_pred method)) ∧
      (method ∉ ["sgd"; "pa"] →
       (∃ K', K y_pred method = Call (pipeline_predict_proba X) K') ∧
       all_calls (fun R c => asks_distances c = false) (K y_pred method)).
Proof.
  split; [apply test_pipeline_asks|].
  eexists. split; [reflexivity|].
  intros y_pred method. cbn beta. split; intros Hmethod.
  - rewrite bool_decide_eq_true_2 by done. split.
    + destruct binary; simpl; eexists; reflexivity.
    + apply all_calls_bind.
      * destruct binary.
        -- apply all_calls_bind; [by apply all_calls_of_call|]. intros d.
           apply all_calls_bind; [apply all_calls_stack_distances|].
           constructor.
        -- by apply all_calls_of_call.
      * intros y_pred_probs. apply metrics_only_apply.
        intros R c Hc. by destruct c.
  - rewrite bool_decide_eq_false_2 by done. split.
    + simpl. eexists. reflexivity.
    + apply all_calls_bind.
      * apply all_calls_bind; [by apply all_calls_of_call|]. constructor.
      * intros y_pred_probs. apply metrics_only_apply.
        intros R c Hc. by destruct c.
Qed.

Lemma test_pipeline_dispatch_witness :
  ∃ K,
    test_pipeline [(); ()] [0; 1] true (Kwargs None None)
    = Call (pipeline_predict [(); ()])
        (fun y_pred => Call pipeline_last_step (K y_pred)) ∧
    ∃ K', K [0; 0] "sgd"%string
          = Call (pipeline_decision_function [(); ()]) K'.
Proof.
  destruct (test_pipeline_dispatch [(); ()] [0; 1] true (Kwargs None None))
    as (_ & K & HK & Hdispatch).
  exists K. split; [exact HK|].
  destruct (Hdispatch [0; 0] "sgd"%string) as [Hsgd _].
  apply Hsgd. set_solver.
Defined.

(** X21.  In binary mode the keyword [include_per_class] is not accepted:
    [test_pipeline] never returns, and no metric primitive is called. *)
Theorem test_pipeline_unexpected_keyword {sample W} (h : handler sample W)
  (X : list sample) (y : list label) (kw : kwargs) (w : W) :
  is_Some (kw_include_per_class kw) →
  all_calls (fun R c => sklearn_call c = false) (test_pipeline X y true kw) ∧
  ∃ e, run h (test_pipeline X y true kw) w = inl e.
Proof.
  intros [b Hkw].
  assert (∀ y_pred y_pred_probs,
            apply_get_metrics (sample := sample) true y y_pred y_pred_probs kw
            = Raise TypeError) as Happly.
  { intros. unfold apply_get_metrics. by rewrite Hkw. }
  split.
  - unfold test_pipeline.
    apply all_calls_bind; [by apply all_calls_of_call|]. intros y_pred.
    apply all_calls_bind; [by apply all_calls_of_call|]. intros method.
    apply all_calls_bind.
    + destruct (bool_decide _).
      * apply all_calls_bind; [by apply all_calls_of_call|]. intros d.
        apply all_calls_bind; [apply all_calls_stack_distances|].
        constructor.
      * apply all_calls_bind; [by apply all_calls_of_call|]. constructor.
    + intros y_pred_probs. rewrite Happly. constructor.
  - destruct (run h (test_pipeline X y true kw) w) as [e|[r w']] eqn:Hrun;
      [eauto|exfalso].
    unfold test_pipeline in Hrun.
    apply run_call_inv in Hrun as (y_pred & ? & _ & Hrun).
    apply run_call_inv in Hrun as (method & ? & _ & Hrun).
    apply run_bind_inv in Hrun as (y_pred_probs & ? & _ & Hrun).
    by rewrite Happly in Hrun.
Qed.

Lemma test_pipeline_unexpected_keyword_witness :
  ∃ e, run Env.env
         (test_pipeline [(); ()] [0; 1] true (Kwargs (Some true) None)) tt
       = inl e.
Proof.
  apply test_pipeline_unexpected_keyword. by eexists.
Defined.

(** X22.  From a vector of decision scores [test_pipeline] builds, in binary
    mode, the two-column matrix whose rows are [[-d, d]]; building it never
    fails, and the matrix has a NaN exactly when the scores have one. *)
Theorem stack_distances_vector {sample : Type} (d : list float) :
  let m := Matrix 2 (map (fun s => [fneg s; s]) d) in
  stack_distances (sample := sample) (Vec d) = Ret m ∧
  well_shaped m ∧ shape0 m = length d ∧
  any_isnan m = existsb isnan d.
Proof.
  split; [|split; [|split]].
  - unfold stack_distances, column_stack2.
    rewrite length_map, Nat.eqb_refl. do 2 f_equal.
    induction d as [|s d IH]; simpl; [done|]. by rewrite <- IH.
  - apply Forall_forall. intros row Hrow.
    by apply list_elem_of_fmap in Hrow as (s & -> & _).
  - unfold shape0. simpl. by rewrite length_map.
  - unfold any_isnan. simpl.
    induction d as [|s d IH]; simpl; [done|].
    rewrite IH. by destruct s.
Qed.


Lemma summary_row_dom (metrics : list key) (res : gmap key value) :
  dom (summary_row metrics res) = list_to_set metrics.
Proof.
  unfold summary_row. rewrite dom_list_to_map_L. f_equal.
  induction metrics as [|m metrics IH]; [done|].
  cbn [map fmap list_fmap fst]. f_equal. exact IH.
Qed.

(** X24.  Every row of the summary table has exactly the keys of the
    mode's metric enumeration: what else a fold's result holds (curves,
    per-class results) does not reach the table. *)
Theorem cross_validate_pipeline_row_keys {sample W : Type}
  (METRICS_BINARY METRICS_MULTICLASS : list key) (N_FOLDS_DEFAULT : nat)
  (h : handler sample W) (X : list sample) (y : list label)
  (binary : option bool) (n_folds : option nat) (kw : kwargs)
  (w w' : W) (df : DataFrame) (results : list (gmap key value)) :
  run h (cross_validate_pipeline METRICS_BINARY METRICS_MULTICLASS
           N_FOLDS_DEFAULT X y binary n_folds kw) w
  = inr ((df, results), w') →
  ∀ row, row ∈ records df →
    dom row
    = list_to_set
        (if default true binary then METRICS_BINARY else METRICS_MULTICLASS).
Proof.
  intros Hrun row Hrow.
  unfold cross_validate_pipeline in Hrun.
  apply run_call_inv in Hrun as (folds & w1 & _ & Hrun).
  apply fold_loop_run in Hrun as (new & _ & -> & _); [|done].
  simpl in Hrow. apply list_elem_of_fmap in Hrow as (res & -> & _).
  apply summary_row_dom.
Qed.

Lemma cross_validate_pipeline_row_keys_witness :
  let metrics_binary := [ACCURACY; COHEN_KAPPA; F1; ROC_AUC; AP; MCC] in
  ∃ df results,
    run Env.env
      (cross_validate_pipeline metrics_binary [] 10
         [(); (); (); ()] [0; 1; 0; 1] None (Some 2)
         (Kwargs None (Some true))) ()
    = inr ((df, results), ()) ∧
    ∀ row, row ∈ records df → dom row = list_to_set metrics_binary.
Proof.
  intros metrics_binary.
  destruct (run Env.env
              (cross_validate_pipeline metrics_binary [] 10
                 [(); (); (); ()] [0; 1; 0; 1] None (Some 2)
                 (Kwargs None (Some true))) ())
    as [e|[[df results] []]] eqn:Hrun; [vm_compute in Hrun; discriminate|].
  exists df, results. split; [done|].
  exact (cross_validate_pipeline_row_keys metrics_binary [] 10 Env.env
           _ _ _ _ _ _ _ _ _ Hrun).
Defined.
